(** * matrix.go: the Matrix bot daemon of jfa-go

    A shallow embedding of [MatrixDaemon] and its methods ([Shutdown],
    [handleMessage], [commandLang], [CreateRoom], [SendStart], [send],
    [Send]) together with the properties of the dispatcher, the pairing
    registry and the message router.

    Go maps are [gmap]s, Go strings are byte strings ([string]), the
    [int64] timestamps are integers in [Z] (they are only compared).
    The daemon talks to the homeserver client, the crypto layer, the
    storage layer and the loggers; every such call is answered by a
    collaborator (see [Collaborators]) and recorded in a trace, so that
    the order and the arguments of the calls can be stated. *)

From Stdlib Require Import ZArith Ascii.
From stdpp Require Import gmap strings list fin_maps.

Local Open Scope Z_scope.
Local Open Scope string_scope.
Local Open Scope list_scope.

(** ** Data model *)

(** A Go [error], identified by its message; [option error] is a
    possibly nil error. *)
Definition error : Type := string.

Record MatrixUser : Type := {
  RoomID : string;
  Encrypted : bool;
  UserID : string;
  Lang : string;
  Contact : bool;
}.

Record UnverifiedUser : Type := {
  Verified : bool;
  User : MatrixUser;
}.

(** [u.Lang = code] on a struct value. *)
Definition with_Lang (u : MatrixUser) (code : string) : MatrixUser :=
  {| RoomID := RoomID u; Encrypted := Encrypted u; UserID := UserID u;
     Lang := code; Contact := Contact u |}.

(** One entry of [storage.lang.Telegram]: the fields this file reads. *)
Record telegramLang : Type := {
  Meta_Name : string;
  Strings : gmap string string;
}.

(** The zero value a Go map lookup yields for a missing key. *)
Definition zero_telegramLang : telegramLang :=
  {| Meta_Name := ""; Strings := ∅ |}.

(** [d.app]: the parts of the application context the daemon uses. *)
Record appContext : Type := {
  storage_matrix : gmap string MatrixUser;
  storage_lang_Telegram : gmap string telegramLang;
  config_matrix_topic : string;
}.

(** The state of a Go channel that is only ever closed. *)
Inductive chan : Type := ChanOpen | ChanClosed.

(** The daemon. The client handle [bot] and the crypto handles
    [cryptoStore] and [olm] belong to the collaborators. *)
Record MatrixDaemon : Type := {
  Stopped : bool;
  ShutdownChannel : chan;
  userID : string;
  tokens : gmap string UnverifiedUser;
  languages : gmap string string;
  Encryption : bool;
  isEncrypted : gmap string bool;
  app : appContext;
  start : Z;
}.

Module event.

(** A decoded JSON value, the dynamic type behind [interface{}]. *)
#[warnings="-register-all"]
Inductive RawValue : Type :=
| RawNil
| RawBool (b : bool)
| RawNumber (literal : string)
| RawString (s : string)
| RawArray (items : list RawValue)
| RawObject (fields : list (string * RawValue)).

Record MessageEventContent : Type := {
  MsgType : string;
  Body : string;
  FormattedBody : string;
  Format : string;
}.

Definition MsgText : string := "m.text".

Record Event : Type := {
  Sender : string;
  RoomID : string;
  Timestamp : Z;
  Content_Raw : gmap string RawValue;
}.

End event.

(** [gomatrix.ReqCreateRoom], the fields [CreateRoom] fills in. *)
Record ReqCreateRoom : Type := {
  Visibility : string;
  Invite : list string;
  Topic : string;
  IsDirect : bool;
}.

(** [*Message]: the fields [Send] reads. *)
Record Message : Type := {
  Text : string;
  Markdown : string;
}.

(** The result of a call returning a value and an error. *)
Inductive Result (A : Type) : Type :=
| Ok (a : A)
| Err (e : error).
Arguments Ok {A} a.
Arguments Err {A} e.

(** ** Calls to the collaborators *)

(** The lines written through [d.app.err.Printf], by call site. *)
Inductive LogEntry : Type :=
| LogCreateRoomFailed (user : string) (e : error)
| LogWelcomeFailed (user : string) (e : error)
| LogSendTextFailed (sender : string) (e : error)
| LogStoreFailed (e : error).

(** One call that leaves the daemon, with its arguments and its answer. *)
Inductive Call : Type :=
| CallCreateRoom (req : ReqCreateRoom) (res : Result string)
| CallEncryptRoom (roomID userID : string) (encrypted : bool)
| CallGenAuthToken (pin : string)
| CallSendMessageEvent (roomID : string)
    (content : event.MessageEventContent) (err : option error)
| CallSendEncrypted (roomID : string)
    (content : event.MessageEventContent) (err : option error)
| CallSendText (roomID text : string) (err : option error)
| CallStoreMatrixUsers (users : gmap string MatrixUser) (err : option error)
| CallErrPrintf (entry : LogEntry)
| CallPrintf (raw : gmap string event.RawValue)
| CallCryptoShutdown
| CallStopSync.

(** The collaborators. An answer may depend on everything that happened
    before (the trace of earlier calls) and on the arguments; the
    functions of the crypto layer also receive the daemon, as in the
    source. [EncryptRoom], [SendEncrypted], [CryptoShutdown] and
    [genAuthToken] are defined outside matrix.go and are taken with the
    interface of section 6 of the specification: they answer and do not
    write to the daemon's maps. *)
Record Collaborators : Type := {
  bot_CreateRoom : list Call → ReqCreateRoom → Result string;
  EncryptRoom : list Call → MatrixDaemon → string → string → bool;
  genAuthToken : list Call → string;
  bot_SendMessageEvent :
    list Call → string → event.MessageEventContent → option error;
  SendEncrypted :
    list Call → MatrixDaemon → event.MessageEventContent → string →
    option error;
  bot_SendText : list Call → string → string → option error;
  storeMatrixUsers : list Call → gmap string MatrixUser → option error;
  markdown_ToHTML : string → string;
  Strings_get : gmap string string → string → string;
  Strings_template :
    gmap string string → string → gmap string string → string;
}.

(** ** The monad of daemon code: state, trace and panics *)

Record Sys : Type := {
  daemon : MatrixDaemon;
  trace : list Call;
}.

Inductive Outcome (A : Type) : Type :=
| Done (a : A) (s : Sys)
| Panicked (msg : string) (s : Sys).
Arguments Done {A} a s.
Arguments Panicked {A} msg s.

Definition M (A : Type) : Type := Sys → Outcome A.

#[global] Instance M_ret : MRet M := fun A a s => Done a s.

#[global] Instance M_bind : MBind M := fun A B k m s =>
  match m s with
  | Done a s' => k a s'
  | Panicked msg s' => Panicked msg s'
  end.

Definition panic {A} (msg : string) : M A := fun s => Panicked msg s.

Definition get_daemon : M MatrixDaemon := fun s => Done (daemon s) s.

Definition modify (f : MatrixDaemon → MatrixDaemon) : M unit :=
  fun s => Done tt {| daemon := f (daemon s); trace := trace s |}.

(** Ask a collaborator: the answer is computed from the trace so far and
    the call is appended to the trace. *)
Definition call {A} (answer : list Call → A) (record : A → Call) : M A :=
  fun s =>
    let a := answer (trace s) in
    Done a {| daemon := daemon s; trace := trace s ++ [record a] |}.

(** A call without an answer. *)
Definition emit (c : Call) : M unit :=
  fun s => Done tt {| daemon := daemon s; trace := trace s ++ [c] |}.

(** Field updates of [*MatrixDaemon]. *)
Definition set_Stopped (b : bool) (d : MatrixDaemon) : MatrixDaemon :=
  {| Stopped := b; ShutdownChannel := ShutdownChannel d; userID := userID d;
     tokens := tokens d; languages := languages d;
     Encryption := Encryption d; isEncrypted := isEncrypted d;
     app := app d; start := start d |}.

Definition set_ShutdownChannel (c : chan) (d : MatrixDaemon) : MatrixDaemon :=
  {| Stopped := Stopped d; ShutdownChannel := c; userID := userID d;
     tokens := tokens d; languages := languages d;
     Encryption := Encryption d; isEncrypted := isEncrypted d;
     app := app d; start := start d |}.

Definition set_tokens (t : gmap string UnverifiedUser) (d : MatrixDaemon)
    : MatrixDaemon :=
  {| Stopped := Stopped d; ShutdownChannel := ShutdownChannel d;
     userID := userID d; tokens := t; languages := languages d;
     Encryption := Encryption d; isEncrypted := isEncrypted d;
     app := app d; start := start d |}.

Definition set_languages (l : gmap string string) (d : MatrixDaemon)
    : MatrixDaemon :=
  {| Stopped := Stopped d; ShutdownChannel := ShutdownChannel d;
     userID := userID d; tokens := tokens d; languages := l;
     Encryption := Encryption d; isEncrypted := isEncrypted d;
     app := app d; start := start d |}.

Definition set_storage_matrix (m : gmap string MatrixUser) (d : MatrixDaemon)
    : MatrixDaemon :=
  {| Stopped := Stopped d; ShutdownChannel := ShutdownChannel d;
     userID := userID d; tokens := tokens d; languages := languages d;
     Encryption := Encryption d; isEncrypted := isEncrypted d;
     app := {| storage_matrix := m;
               storage_lang_Telegram := storage_lang_Telegram (app d);
               config_matrix_topic := config_matrix_topic (app d) |};
     start := start d |}.

(** ** Library functions of Go used by the daemon *)

(** The line feed of the Go string literals. *)
Definition nl : string := String "010"%char "".

(** [strings.Split(s, sep)] for the one-byte separator of the source, a
    space: the pieces between the separators, one more than there are
    separators; the empty string gives one empty piece. *)
Fixpoint Split_space (s : string) : list string :=
  match s with
  | "" => [""]
  | String c s' =>
      if decide (c = " "%char) then "" :: Split_space s'
      else
        match Split_space s' with
        | piece :: pieces => String c piece :: pieces
        | [] => [String c ""]
        end
  end.

(** [strings.ReplaceAll(s, old, new)] for the pair of the source: every
    image marker, an exclamation mark followed by an opening bracket,
    becomes the bracket alone (left to right, without overlap). *)
Fixpoint ReplaceAll_image (s : string) : string :=
  match s with
  | "" => ""
  | String c s' =>
      match s' with
      | String c' s'' =>
          if decide (c = "!"%char ∧ c' = "["%char)
          then String "["%char (ReplaceAll_image s'')
          else String c (ReplaceAll_image s')
      | "" => String c ""
      end
  end.

(** [m[k]] on the language table: the zero value when [k] is missing. *)
Definition Telegram_at (langs : gmap string telegramLang) (k : string)
    : telegramLang :=
  default zero_telegramLang (langs !! k).

(** The type assertion [v.(string)] on a map lookup: it panics unless the
    value is present and is a string. *)
Definition assert_string (v : option event.RawValue) : M string :=
  match v with
  | Some (event.RawString s) => mret s
  | _ => panic "interface conversion: interface {} is not string"
  end.

(** ** The methods of [*MatrixDaemon] *)

Section Daemon.

Context (E : Collaborators).

(** [Shutdown], last statement: closing a channel that is already closed
    is a run-time panic in Go. *)
Definition close_ShutdownChannel : M unit :=
  d ← get_daemon;
  match ShutdownChannel d with
  | ChanOpen => modify (set_ShutdownChannel ChanClosed)
  | ChanClosed => panic "close of closed channel"
  end.

Definition Shutdown : M unit :=
  emit CallCryptoShutdown;;
  emit CallStopSync;;
  modify (set_Stopped true);;
  close_ShutdownChannel.

(** The listing [commandLang] replies with. The source ranges over the
    language table, in an order Go leaves open; [map_to_list] fixes one. *)
Definition lang_list (langs : gmap string telegramLang) : string :=
  foldl
    (fun list c => list +:+ c +:+ ": " +:+ Meta_Name (Telegram_at langs c) +:+ nl)
    ("!lang <lang>" +:+ nl)
    (map_to_list langs).*1.

Definition commandLang (evt : event.Event) (code lang : string) : M unit :=
  d ← get_daemon;
  if decide (code = "") then
    let list := lang_list (storage_lang_Telegram (app d)) in
    err ← call (fun h => bot_SendText E h (event.RoomID evt) list)
               (CallSendText (event.RoomID evt) list);
    match err with
    | Some e => emit (CallErrPrintf (LogSendTextFailed (event.Sender evt) e))
    | None => mret tt
    end
  else
    match storage_lang_Telegram (app d) !! code with
    | None => mret tt
    | Some _ =>
        modify (fun d => set_languages (<[event.RoomID evt := code]> (languages d)) d);;
        match storage_matrix (app d) !! event.RoomID evt with
        | Some u =>
            let users := <[event.RoomID evt := with_Lang u code]> (storage_matrix (app d)) in
            modify (set_storage_matrix users);;
            err ← call (fun h => storeMatrixUsers E h users)
                       (CallStoreMatrixUsers users);
            match err with
            | Some e => emit (CallErrPrintf (LogStoreFailed e))
            | None => mret tt
            end
        | None => mret tt
        end
    end.

(** The language [handleMessage] hands to a command: the cached language
    of the room when it is a key of the language table, [en-us]
    otherwise. *)
Definition room_lang (d : MatrixDaemon) (roomID : string) : string :=
  match languages d !! roomID with
  | Some l =>
      match storage_lang_Telegram (app d) !! l with
      | Some _ => l
      | None => "en-us"
      end
  | None => "en-us"
  end.

(** [handleMessage] with the command handler as a parameter: what the
    dispatcher does before and around the call of the handler. *)
Definition handleMessage_with
    (handler : event.Event → string → string → M unit)
    (evt : event.Event) : M unit :=
  d ← get_daemon;
  if bool_decide (event.Timestamp evt < start d) then mret tt
  else if decide (event.Sender evt = userID d) then mret tt
  else
    emit (CallPrintf (event.Content_Raw evt));;
    let lang := room_lang d (event.RoomID evt) in
    body ← assert_string (event.Content_Raw evt !! "body");
    let sects := Split_space body in
    match sects with
    | [] => panic "index out of range"
    | first :: _ =>
        if decide (first = "!lang") then
          if decide (length sects = 2%nat)
          then handler evt (nth 1 sects "") lang
          else handler evt "" lang
        else mret tt
    end.

Definition handleMessage (evt : event.Event) : M unit :=
  handleMessage_with commandLang evt.

Definition CreateRoom (userID : string) : M (string * bool * option error) :=
  d ← get_daemon;
  let req := {| Visibility := "private"; Invite := [userID];
                Topic := config_matrix_topic (app d); IsDirect := true |} in
  room ← call (fun h => bot_CreateRoom E h req) (CallCreateRoom req);
  match room with
  | Err e => mret ("", false, Some e)
  | Ok roomID =>
      encrypted ← call (fun h => EncryptRoom E h d roomID userID)
                       (CallEncryptRoom roomID userID);
      mret (roomID, encrypted, None)
  end.

(** [send]: the room's entry in [isEncrypted] picks the transport. The
    plaintext branch sends an [m.room.message] event. *)
Definition send (content : event.MessageEventContent) (roomID : string)
    : M (option error) :=
  d ← get_daemon;
  match isEncrypted d !! roomID with
  | Some true =>
      call (fun h => SendEncrypted E h d content roomID)
           (CallSendEncrypted roomID content)
  | _ =>
      call (fun h => bot_SendMessageEvent E h roomID content)
           (CallSendMessageEvent roomID content)
  end.

(** The body of the welcome message for a PIN. *)
Definition welcome_body (d : MatrixDaemon) (lang pin : string) : string :=
  let strings := Strings (Telegram_at (storage_lang_Telegram (app d)) lang) in
  Strings_get E strings "matrixStartMessage" +:+ nl +:+ nl +:+ pin +:+ nl +:+ nl
  +:+ Strings_template E strings "languageMessage" {["command" := "!lang"]}.

(** The pending token [SendStart] stores under the PIN. *)
Definition pending (roomID userID lang : string) (encrypted : bool)
    : UnverifiedUser :=
  {| Verified := false;
     User := {| RoomID := roomID; UserID := userID; Lang := lang;
                Encrypted := encrypted; Contact := false |} |}.

Definition SendStart (userID : string) : M bool :=
  '(roomID, encrypted, err) ← CreateRoom userID;
  match err with
  | Some e => emit (CallErrPrintf (LogCreateRoomFailed userID e));; mret false
  | None =>
      let lang := "en-us" in
      pin ← call (genAuthToken E) CallGenAuthToken;
      modify (fun d => set_tokens (<[pin := pending roomID userID lang encrypted]> (tokens d)) d);;
      d ← get_daemon;
      err ← send {| event.MsgType := event.MsgText;
                    event.Body := welcome_body d lang pin;
                    event.FormattedBody := ""; event.Format := "" |}
                 roomID;
      match err with
      | Some e => emit (CallErrPrintf (LogWelcomeFailed userID e));; mret false
      | None => mret true
      end
  end.

(** The loop of [Send] over the target users: it returns at the first
    error. *)
Fixpoint Send_range (content : event.MessageEventContent)
    (users : list MatrixUser) : M (option error) :=
  match users with
  | [] => mret None
  | user :: rest =>
      err ← (if Encrypted user
             then d ← get_daemon;
                  call (fun h => SendEncrypted E h d content (RoomID user))
                       (CallSendEncrypted (RoomID user) content)
             else send content (RoomID user));
      match err with
      | Some e => mret (Some e)
      | None => Send_range content rest
      end
  end.

Definition Send (message : Message) (users : list MatrixUser)
    : M (option error) :=
  let md :=
    if decide (Markdown message = "") then ""
    else markdown_ToHTML E (ReplaceAll_image (Markdown message)) in
  let content :=
    if decide (md = "") then
      {| event.MsgType := "m.text"; event.Body := Text message;
         event.FormattedBody := ""; event.Format := "" |}
    else
      {| event.MsgType := "m.text"; event.Body := Text message;
         event.FormattedBody := md;
         event.Format := "org.matrix.custom.html" |} in
  Send_range content users.

End Daemon.

(** ** Observations on states, traces and outcomes *)

(** The state a computation ends in, normally or by a panic. *)
Definition final {A} (o : Outcome A) : Sys :=
  match o with
  | Done _ s => s
  | Panicked _ s => s
  end.

(** The text of an event: the string under the key [body], if any. *)
Definition body_text (evt : event.Event) : option string :=
  match event.Content_Raw evt !! "body" with
  | Some (event.RawString b) => Some b
  | _ => None
  end.

(** An event with this text. *)
Definition has_body (evt : event.Event) (b : string) : Prop :=
  event.Content_Raw evt !! "body" = Some (event.RawString b).

(** An event that passes the two filters of [handleMessage]. *)
Definition passes_filters (d : MatrixDaemon) (evt : event.Event) : Prop :=
  ¬ (event.Timestamp evt < start d) ∧ event.Sender evt ≠ userID d.

(** A string without a space; together with being non-empty this is what
    makes it one argument of a command. *)
Fixpoint no_space (s : string) : bool :=
  match s with
  | "" => true
  | String c s' => if decide (c = " "%char) then false else no_space s'
  end.

Definition is_argument (code : string) : Prop :=
  code ≠ "" ∧ no_space code = true.

(** A language code is recognized when it is a key of the language
    table. *)
Definition recognized (d : MatrixDaemon) (code : string) : Prop :=
  is_Some (storage_lang_Telegram (app d) !! code).

(** The two transports of the router. *)
Inductive Transport : Type := Plaintext | EncryptedPath.

Record Delivery : Type := {
  to_room : string;
  via : Transport;
  outcome : option error;
}.

(** The delivery a call of [send] or [Send] makes, if the call is one.
    The listing that [commandLang] replies with goes through [SendText]
    and is not a delivery of the router. *)
Definition delivery (c : Call) : option Delivery :=
  match c with
  | CallSendMessageEvent r _ err =>
      Some {| to_room := r; via := Plaintext; outcome := err |}
  | CallSendEncrypted r _ err =>
      Some {| to_room := r; via := EncryptedPath; outcome := err |}
  | _ => None
  end.

Definition deliveries (calls : list Call) : list Delivery :=
  omap delivery calls.

(** The tables handed to the persistence collaborator, one per call. *)
Definition store_calls (calls : list Call) : list (gmap string MatrixUser) :=
  omap (fun c => match c with
                 | CallStoreMatrixUsers users _ => Some users
                 | _ => None
                 end) calls.

(** The replies and messages sent to rooms, on any path. *)
Definition is_reply (c : Call) : bool :=
  match c with
  | CallSendText _ _ _ | CallSendMessageEvent _ _ _
  | CallSendEncrypted _ _ _ => true
  | _ => false
  end.

Definition room_created (calls : list Call) : Prop :=
  ∃ req roomID, CallCreateRoom req (Ok roomID) ∈ calls.

Definition welcome_sent (calls : list Call) : Prop :=
  ∃ dl, dl ∈ deliveries calls ∧ outcome dl = None.

Definition logged (calls : list Call) : Prop :=
  ∃ entry, CallErrPrintf entry ∈ calls.

(** ** Runs of the daemon *)

(** What the sync loop and the account system ask of the daemon. *)
Inductive Op : Type :=
| OpHandleMessage (evt : event.Event)
| OpSendStart (userID : string)
| OpSendContent (content : event.MessageEventContent) (roomID : string)
| OpSend (message : Message) (users : list MatrixUser)
| OpShutdown.

Definition run_op (E : Collaborators) (o : Op) : M unit :=
  match o with
  | OpHandleMessage evt => handleMessage E evt
  | OpSendStart userID => SendStart E userID;; mret tt
  | OpSendContent content roomID => send E content roomID;; mret tt
  | OpSend message users => Send E message users;; mret tt
  | OpShutdown => Shutdown
  end.

(** A run ends with its last operation or with the first panic. *)
Fixpoint run (E : Collaborators) (ops : list Op) : M unit :=
  match ops with
  | [] => mret tt
  | o :: rest => run_op E o;; run E rest
  end.

(** ** The shape of what the router and the pairing do *)

(** The transport [send] picks for a room: the encrypted path exactly
    when the room's entry in [isEncrypted] is present and true. *)
Definition transport_for (d : MatrixDaemon) (roomID : string) : Transport :=
  match isEncrypted d !! roomID with
  | Some true => EncryptedPath
  | _ => Plaintext
  end.

(** The transport [Send] picks for a user: the encrypted path when the
    binding says so, the choice of [send] otherwise. *)
Definition user_transport (d : MatrixDaemon) (user : MatrixUser) : Transport :=
  if Encrypted user then EncryptedPath else transport_for d (RoomID user).

(** The call a delivery on a transport is. *)
Definition transport_call (v : Transport) (roomID : string)
    (content : event.MessageEventContent) (err : option error) : Call :=
  match v with
  | Plaintext => CallSendMessageEvent roomID content err
  | EncryptedPath => CallSendEncrypted roomID content err
  end.

(** The three ways [SendStart] ends: with the result, the daemon it
    leaves and the calls it made. *)
Inductive SendStart_shape (userID : string) (d : MatrixDaemon)
    : bool → MatrixDaemon → list Call → Prop :=
| SendStart_no_room req e :
    SendStart_shape userID d false d
      [CallCreateRoom req (Err e);
       CallErrPrintf (LogCreateRoomFailed userID e)]
| SendStart_no_welcome req roomID encrypted pin content e :
    let d' := set_tokens
                (<[pin := pending roomID userID "en-us" encrypted]> (tokens d))
                d in
    SendStart_shape userID d false d'
      [CallCreateRoom req (Ok roomID);
       CallEncryptRoom roomID userID encrypted;
       CallGenAuthToken pin;
       transport_call (transport_for d' roomID) roomID content (Some e);
       CallErrPrintf (LogWelcomeFailed userID e)]
| SendStart_welcomed req roomID encrypted pin content :
    let d' := set_tokens
                (<[pin := pending roomID userID "en-us" encrypted]> (tokens d))
                d in
    SendStart_shape userID d true d'
      [CallCreateRoom req (Ok roomID);
       CallEncryptRoom roomID userID encrypted;
       CallGenAuthToken pin;
       transport_call (transport_for d' roomID) roomID content None].

(** The calls of the loop of [Send]: one delivery per user, in order, up
    to the end of the list or to the first delivery that fails. *)
Inductive Send_shape (d : MatrixDaemon) (content : event.MessageEventContent)
    : list MatrixUser → option error → list Call → Prop :=
| Send_all_done : Send_shape d content [] None []
| Send_failed user rest e :
    Send_shape d content (user :: rest) (Some e)
      [transport_call (user_transport d user) (RoomID user) content (Some e)]
| Send_next user rest err calls :
    Send_shape d content rest err calls →
    Send_shape d content (user :: rest) err
      (transport_call (user_transport d user) (RoomID user) content None
       :: calls).

(** A call respects the encryption flags when, if it is a delivery to a
    room whose flag is true, it is on the encrypted path. *)
Definition routed_by_flag (flags : gmap string bool) (c : Call) : Prop :=
  match delivery c with
  | Some dl => flags !! to_room dl = Some true → via dl = EncryptedPath
  | None => True
  end.

(** A computation is sticky when, however it ends, it leaves the
    encryption flags as they were and all its calls respect them. *)
Definition sticky {A} (m : M A) : Prop :=
  ∀ s,
    isEncrypted (daemon (final (m s))) = isEncrypted (daemon s) ∧
    ∃ new,
      trace (final (m s)) = trace s ++ new ∧
      Forall (routed_by_flag (isEncrypted (daemon s))) new.

(** ** A small installation, for the examples *)

(** Collaborators with fixed answers: the answer of room creation, of the
    encryption negotiation, the PIN, and the answer of every delivery. *)
Definition answering (created : Result string) (encrypted : bool)
    (pin : string) (sent : option error) : Collaborators :=
  {| bot_CreateRoom := fun _ _ => created;
     EncryptRoom := fun _ _ _ _ => encrypted;
     genAuthToken := fun _ => pin;
     bot_SendMessageEvent := fun _ _ _ => sent;
     SendEncrypted := fun _ _ _ _ => sent;
     bot_SendText := fun _ _ _ => None;
     storeMatrixUsers := fun _ _ => None;
     markdown_ToHTML := fun s => s;
     Strings_get := fun strings key => default "" (strings !! key);
     Strings_template := fun strings key _ => default "" (strings !! key) |}.

Definition alice : MatrixUser :=
  {| RoomID := "!paired"; Encrypted := false; UserID := "@alice";
     Lang := "en-us"; Contact := true |}.

Definition bob : MatrixUser :=
  {| RoomID := "!other"; Encrypted := false; UserID := "@bob";
     Lang := "en-us"; Contact := true |}.

(** A binding whose own flag is off although its room is encrypted. *)
Definition eve : MatrixUser :=
  {| RoomID := "!secret"; Encrypted := false; UserID := "@eve";
     Lang := "fr"; Contact := true |}.

Definition example_app : appContext :=
  {| storage_matrix := {[ "!paired" := alice ]};
     storage_lang_Telegram :=
       {[ "en-us" := {| Meta_Name := "English"; Strings := ∅ |};
          "fr" := {| Meta_Name := "French"; Strings := ∅ |} ]};
     config_matrix_topic := "jfa-go" |}.

(** A running daemon: one paired plaintext room, one encrypted room, and
    one pending token. *)
Definition example_daemon : MatrixDaemon :=
  {| Stopped := false; ShutdownChannel := ChanOpen; userID := "@bot";
     tokens :=
       {[ "AB-CD-EF" :=
            {| Verified := false;
               User := {| RoomID := "!pending"; Encrypted := false;
                          UserID := "@carol"; Lang := "en-us";
                          Contact := false |} |} ]};
     languages := {[ "!paired" := "en-us" ]};
     Encryption := true;
     isEncrypted := {[ "!paired" := false; "!secret" := true ]};
     app := example_app;
     start := 1000 |}.

Definition example_sys : Sys := {| daemon := example_daemon; trace := [] |}.

(** A text message. *)
Definition text_event (sender roomID : string) (timestamp : Z)
    (body : string) : event.Event :=
  {| event.Sender := sender; event.RoomID := roomID;
     event.Timestamp := timestamp;
     event.Content_Raw := {[ "body" := event.RawString body ]} |}.

(** A message event without a body, such as a redacted one. *)
Definition empty_event (sender roomID : string) (timestamp : Z)
    : event.Event :=
  {| event.Sender := sender; event.RoomID := roomID;
     event.Timestamp := timestamp; event.Content_Raw := ∅ |}.

Definition plain_content (body : string) : event.MessageEventContent :=
  {| event.MsgType := "m.text"; event.Body := body;
     event.FormattedBody := ""; event.Format := "" |}.

(** A day of the example daemon: a language command, a pairing, a
    notification to three users and a direct send. *)
Definition example_run : list Op :=
  [OpHandleMessage (text_event "@alice" "!paired" 2000 "!lang fr");
   OpSendStart "@dave";
   OpSend {| Text := "hello"; Markdown := "" |} [alice; eve; bob];
   OpSendContent (plain_content "bye") "!secret"].

(** ** Start-up *)

Definition set_isEncrypted (e : gmap string bool) (d : MatrixDaemon)
    : MatrixDaemon :=
  {| Stopped := Stopped d; ShutdownChannel := ShutdownChannel d;
     userID := userID d; tokens := tokens d; languages := languages d;
     Encryption := Encryption d; isEncrypted := e;
     app := app d; start := start d |}.

(** [newMatrixDaemon], the struct literal: the daemon of an application
    context and a configured user, built when the clock reads [now]
    nanoseconds. The division is the truncating one of [int64]. *)
Definition fresh_daemon (a : appContext) (user_id : string) (now : Z)
    : MatrixDaemon :=
  {| Stopped := false; ShutdownChannel := ChanOpen; userID := user_id;
     tokens := ∅; languages := ∅; Encryption := false; isEncrypted := ∅;
     app := a; start := Z.quot now 1000000 |}.

(** [newMatrixDaemon], the body of the loop over the stored bindings: the
    language is cached unless it is empty, the flag is cached always. *)
Definition seed_room (d : MatrixDaemon) (user : MatrixUser) : MatrixDaemon :=
  let d1 :=
    if decide (Lang user = "") then d
    else set_languages (<[RoomID user := Lang user]> (languages d)) d in
  set_isEncrypted (<[RoomID user := Encrypted user]> (isEncrypted d1)) d1.

(** [newMatrixDaemon], the loop. Go ranges over the table of bindings in
    an order it leaves open: [order] is the list of the stored bindings
    as the loop meets them. *)
Definition seed_rooms (order : list MatrixUser) (d : MatrixDaemon)
    : MatrixDaemon :=
  foldl seed_room d order.

(** The orders in which a loop can meet the bindings of a table. *)
Definition range_order (table : gmap string MatrixUser)
    (order : list MatrixUser) : Prop :=
  order ≡ₚ (map_to_list table).*2.

(** ** Further observations *)

(** [strings.Join(pieces, sep)] for the separator of [Split_space]. *)
Fixpoint join_space (pieces : list string) : string :=
  match pieces with
  | [] => ""
  | piece :: rest =>
      match rest with
      | [] => piece
      | _ :: _ => piece +:+ String " " (join_space rest)
      end
  end.

Fixpoint count_spaces (s : string) : nat :=
  match s with
  | "" => 0
  | String c s' =>
      if decide (c = " "%char) then S (count_spaces s') else count_spaces s'
  end.

(** A string without an exclamation mark. *)
Fixpoint no_bang (s : string) : bool :=
  match s with
  | "" => true
  | String c s' => if decide (c = "!"%char) then false else no_bang s'
  end.

(** [sub] occurs in [s]. *)
Definition contains (s sub : string) : Prop :=
  ∃ before after, s = before +:+ sub +:+ after.

(** The content [Send] builds for a message, before its loop. *)
Definition message_content (E : Collaborators) (message : Message)
    : event.MessageEventContent :=
  let md :=
    if decide (Markdown message = "") then ""
    else markdown_ToHTML E (ReplaceAll_image (Markdown message)) in
  if decide (md = "") then
    {| event.MsgType := "m.text"; event.Body := Text message;
       event.FormattedBody := ""; event.Format := "" |}
  else
    {| event.MsgType := "m.text"; event.Body := Text message;
       event.FormattedBody := md;
       event.Format := "org.matrix.custom.html" |}.

(** The calls of the dispatcher: the print of the received content, the
    listing reply, the persistence of the bindings and the error log. *)
Definition dispatcher_call (c : Call) : Prop :=
  match c with
  | CallPrintf _ | CallSendText _ _ _ | CallStoreMatrixUsers _ _
  | CallErrPrintf _ => True
  | _ => False
  end.

(** Two daemons that differ at most in the cached languages and in the
    stored bindings. *)
Definition only_languages_differ (d d' : MatrixDaemon) : Prop :=
  d' = set_storage_matrix (storage_matrix (app d'))
         (set_languages (languages d') d).

(** A computation that, however it ends, moves the daemon along [R] and
    makes only calls that satisfy [ok]. *)
Definition preserves {A} (R : MatrixDaemon → MatrixDaemon → Prop)
    (ok : Call → Prop) (m : M A) : Prop :=
  ∀ s,
    R (daemon s) (daemon (final (m s))) ∧
    ∃ new, trace (final (m s)) = trace s ++ new ∧ Forall ok new.

(** The log line of a failed reply or store, if there is an error. *)
Definition log_if (entry : error → LogEntry) (err : option error)
    : list Call :=
  match err with
  | Some e => [CallErrPrintf (entry e)]
  | None => []
  end.

(** * Properties *)

(** ** Splitting a command line *)

Lemma Split_space_nonempty (s : string) : Split_space s ≠ [].
Proof.
  induction s as [|c s IH]; cbn; [done|].
  case_decide; [done|]. by destruct (Split_space s).
Qed.

Lemma Split_space_argument (code : string) :
  no_space code = true → Split_space code = [code].
Proof.
  induction code as [|c code IH]; cbn; [done|].
  case_decide; [done|]. intros Hcode. by rewrite IH.
Qed.

Lemma Split_space_word (w rest : string) :
  no_space w = true →
  Split_space (w +:+ String " " rest) = w :: Split_space rest.
Proof.
  induction w as [|c w IH]; intros Hw.
  - change (Split_space (String " " rest) = "" :: Split_space rest).
    cbn [Split_space]. by case_decide.
  - change (Split_space (String c (w +:+ String " " rest))
            = String c w :: Split_space rest).
    cbn [Split_space no_space] in *. case_decide; [done|]. by rewrite IH.
Qed.

Lemma Split_space_lang (code : string) :
  no_space code = true → Split_space ("!lang " +:+ code) = ["!lang"; code].
Proof.
  intros Hcode. change ("!lang " +:+ code) with ("!lang" +:+ String " " code).
  rewrite Split_space_word; [|done]. by rewrite Split_space_argument.
Qed.

(** ** The dispatcher *)

(** Unfolding the monad and the primitive actions. *)
Ltac unfold_M :=
  unfold mbind, M_bind, mret, M_ret, get_daemon, modify, call, emit, panic;
  cbn.

(** [commandLang] never panics. *)
Lemma commandLang_returns E evt code lang s :
  ∃ s', commandLang E evt code lang s = Done tt s'.
Proof.
  unfold commandLang. unfold_M.
  repeat (case_match; unfold_M); eauto.
Qed.

(** C8: an event older than the daemon's start is discarded: whatever
    the command handler is, it is not called, and the state and the trace
    of calls stay as they were. *)
Theorem handleMessage_discards_backlog E handler evt s :
  event.Timestamp evt < start (daemon s) →
  handleMessage_with handler evt s = Done tt s ∧
  handleMessage E evt s = Done tt s.
Proof.
  intros Hold. unfold handleMessage, handleMessage_with. unfold_M.
  by rewrite bool_decide_eq_true_2.
Qed.

Lemma handleMessage_discards_backlog_witness :
  handleMessage_with (fun _ _ _ => panic "handler called")
    (text_event "@alice" "!paired" 999 "!lang fr") example_sys
  = Done tt example_sys ∧
  handleMessage (answering (Ok "!new") false "12-34-56" None)
    (text_event "@alice" "!paired" 999 "!lang fr") example_sys
  = Done tt example_sys.
Proof.
  apply (handleMessage_discards_backlog
           (answering (Ok "!new") false "12-34-56" None)
           (fun _ _ _ => panic "handler called")
           (text_event "@alice" "!paired" 999 "!lang fr") example_sys).
  cbn. lia.
Defined.

(** What [handleMessage] does with an event that passes the filters and
    carries a text: it prints the content and dispatches on the text. *)
Lemma handleMessage_text E evt b s :
  passes_filters (daemon s) evt → has_body evt b →
  handleMessage E evt s =
    let s1 := {| daemon := daemon s;
                 trace := trace s ++ [CallPrintf (event.Content_Raw evt)] |} in
    match Split_space b with
    | [] => Panicked "index out of range" s1
    | first :: _ =>
        if decide (first = "!lang") then
          if decide (length (Split_space b) = 2%nat)
          then commandLang E evt (nth 1 (Split_space b) "")
                 (room_lang (daemon s) (event.RoomID evt)) s1
          else commandLang E evt "" (room_lang (daemon s) (event.RoomID evt)) s1
        else Done tt s1
    end.
Proof.
  intros [Hnew Hother] Hbody. unfold handleMessage, handleMessage_with.
  unfold_M. rewrite bool_decide_eq_false_2 by done.
  rewrite decide_False by done. cbn.
  unfold has_body in Hbody. rewrite Hbody. unfold_M.
  by repeat case_match.
Qed.

(** C9: for an event that passes both filters, [handleMessage] panics, at
    the type assertion and after printing the content, when the content
    has no string under the key body; it returns when there is one. *)
Theorem handleMessage_panics_without_text E evt s :
  passes_filters (daemon s) evt →
  (body_text evt = None →
   ∃ msg, handleMessage E evt s =
          Panicked msg
            {| daemon := daemon s;
               trace := trace s ++ [CallPrintf (event.Content_Raw evt)] |}) ∧
  (∀ b, body_text evt = Some b → ∃ s', handleMessage E evt s = Done tt s').
Proof.
  intros Hpass. split.
  - destruct Hpass as [Hnew Hother]. intros Hnone.
    unfold handleMessage, handleMessage_with. unfold_M.
    rewrite bool_decide_eq_false_2 by done.
    rewrite decide_False by done. cbn.
    unfold body_text in Hnone. unfold assert_string.
    destruct (event.Content_Raw evt !! "body") as [[]|]; try done;
      unfold_M; eauto.
  - intros b Hb. assert (has_body evt b) as Hbody.
    { unfold body_text in Hb. unfold has_body.
      destruct (event.Content_Raw evt !! "body") as [[]|]; naive_solver. }
    rewrite (handleMessage_text E evt b s Hpass Hbody). cbn zeta.
    pose proof (Split_space_nonempty b) as Hne.
    destruct (Split_space b) as [|first sects]; [done|].
    repeat case_decide; eauto using commandLang_returns.
Qed.

Lemma handleMessage_panics_without_text_witness :
  ∃ msg,
    handleMessage (answering (Ok "!new") false "12-34-56" None)
      (empty_event "@alice" "!paired" 2000) example_sys
    = Panicked msg
        {| daemon := example_daemon; trace := [CallPrintf ∅] |}.
Proof.
  assert (passes_filters (daemon example_sys)
            (empty_event "@alice" "!paired" 2000)) as Hpass.
  { split; [cbn; lia | discriminate]. }
  destruct (handleMessage_panics_without_text
              (answering (Ok "!new") false "12-34-56" None)
              (empty_event "@alice" "!paired" 2000) example_sys Hpass)
    as [Hpanic _].
  apply Hpanic. reflexivity.
Defined.

(** A language command with one argument reaches [commandLang] with that
    argument. *)
Lemma handleMessage_lang_argument E evt code s :
  passes_filters (daemon s) evt →
  has_body evt ("!lang " +:+ code) →
  no_space code = true →
  handleMessage E evt s =
    commandLang E evt code (room_lang (daemon s) (event.RoomID evt))
      {| daemon := daemon s;
         trace := trace s ++ [CallPrintf (event.Content_Raw evt)] |}.
Proof.
  intros Hpass Hbody Hspace.
  rewrite (handleMessage_text E evt _ s Hpass Hbody).
  rewrite Split_space_lang by done. cbn.
  by do 2 (case_decide; [|done]).
Qed.

(** C7: a language command whose one argument is not a key of the
    language table is ignored: the handler returns, the daemon is as it
    was, and nothing is sent, stored or logged (the only call there can
    be is the print of the received content). *)
Theorem lang_unrecognized_is_ignored E evt code s :
  has_body evt ("!lang " +:+ code) →
  is_argument code →
  ¬ recognized (daemon s) code →
  ∃ s' new,
    handleMessage E evt s = Done tt s' ∧
    daemon s' = daemon s ∧
    trace s' = trace s ++ new ∧
    (new = [] ∨ new = [CallPrintf (event.Content_Raw evt)]) ∧
    Forall (fun c => is_reply c = false) new.
Proof.
  intros Hbody [Hcode Hspace] Hunknown.
  destruct (decide (event.Timestamp evt < start (daemon s))) as [Hold|Hnew].
  { exists s, []. unfold handleMessage, handleMessage_with. unfold_M.
    rewrite bool_decide_eq_true_2 by done.
    rewrite app_nil_r. split_and!; auto. }
  destruct (decide (event.Sender evt = userID (daemon s))) as [Hself|Hother].
  { exists s, []. unfold handleMessage, handleMessage_with. unfold_M.
    rewrite bool_decide_eq_false_2 by done. case_decide; [|done].
    rewrite app_nil_r. split_and!; auto. }
  rewrite (handleMessage_lang_argument E evt code s) by done.
  unfold commandLang. unfold_M. case_decide; [done|].
  apply eq_None_not_Some in Hunknown. unfold recognized in *.
  rewrite Hunknown. unfold_M.
  eexists _, [_]. split_and!; cbn; eauto.
Qed.

Lemma lang_unrecognized_is_ignored_witness :
  ∃ s' new,
    handleMessage (answering (Ok "!new") false "12-34-56" None)
      (text_event "@alice" "!paired" 2000 "!lang xx") example_sys
    = Done tt s' ∧
    daemon s' = example_daemon ∧
    trace s' = new ∧
    (new = [] ∨ new = [CallPrintf {[ "body" := event.RawString "!lang xx" ]}]) ∧
    Forall (fun c => is_reply c = false) new.
Proof.
  apply (lang_unrecognized_is_ignored
           (answering (Ok "!new") false "12-34-56" None)
           (text_event "@alice" "!paired" 2000 "!lang xx") "xx" example_sys).
  - reflexivity.
  - split; [discriminate | reflexivity].
  - intros [l Hl]. vm_compute in Hl. discriminate.
Defined.

(** C6, as stated, fails for a room without a stored binding: the
    language command of the room with the pending token sets the cached
    language to a recognized code, and the persistence collaborator is
    not called at all. *)
Lemma lang_recognized_without_binding_not_persisted :
  ∃ s',
    handleMessage (answering (Ok "!new") false "12-34-56" None)
      (text_event "@carol" "!pending" 2000 "!lang fr") example_sys
    = Done tt s' ∧
    recognized example_daemon "fr" ∧
    languages (daemon s') !! "!pending" = Some "fr" ∧
    store_calls (trace s') = [].
Proof.
  eexists. split; [vm_compute; reflexivity|].
  split; [by eexists|]. split; reflexivity.
Qed.

(** C6, amended: a language command with a recognized argument sets the
    cached language of the room, so that the dispatcher reads it back;
    when a binding is stored under the room's identifier, its language is
    updated and the persistence collaborator is called exactly once, with
    the table that holds the updated binding; when none is stored, the
    table is left as it is and the persistence collaborator is not
    called. *)
Theorem lang_recognized_sets_language E evt code s :
  passes_filters (daemon s) evt →
  has_body evt ("!lang " +:+ code) →
  is_argument code →
  recognized (daemon s) code →
  ∃ s' new,
    handleMessage E evt s = Done tt s' ∧
    trace s' = trace s ++ new ∧
    languages (daemon s') !! event.RoomID evt = Some code ∧
    room_lang (daemon s') (event.RoomID evt) = code ∧
    match storage_matrix (app (daemon s)) !! event.RoomID evt with
    | Some u =>
        storage_matrix (app (daemon s')) =
          <[event.RoomID evt := with_Lang u code]>
            (storage_matrix (app (daemon s))) ∧
        store_calls new = [storage_matrix (app (daemon s'))]
    | None =>
        storage_matrix (app (daemon s')) = storage_matrix (app (daemon s)) ∧
        store_calls new = []
    end.
Proof.
  intros Hpass Hbody [Hcode Hspace] [l Hl].
  rewrite (handleMessage_lang_argument E evt code s) by done.
  unfold commandLang, room_lang. unfold_M. case_decide; [done|].
  rewrite Hl. unfold_M.
  destruct (storage_matrix (app (daemon s)) !! event.RoomID evt) as [u|];
    unfold_M.
  - destruct (storeMatrixUsers E _ _) as [e|]; unfold_M;
      eexists _, _; (split; [reflexivity|]); cbn;
      rewrite <- ?(assoc_L (++)); (split; [reflexivity|]);
      rewrite lookup_insert_eq, Hl; done.
  - eexists _, _. split; [reflexivity|]. cbn. split; [reflexivity|].
    by rewrite lookup_insert_eq, Hl.
Qed.

Lemma lang_recognized_sets_language_witness :
  ∃ s' new,
    handleMessage (answering (Ok "!new") false "12-34-56" None)
      (text_event "@alice" "!paired" 2000 "!lang fr") example_sys
    = Done tt s' ∧
    trace s' = new ∧
    languages (daemon s') !! "!paired" = Some "fr" ∧
    room_lang (daemon s') "!paired" = "fr" ∧
    storage_matrix (app (daemon s')) =
      <[ "!paired" := with_Lang alice "fr" ]> (storage_matrix example_app) ∧
    store_calls new = [storage_matrix (app (daemon s'))].
Proof.
  apply (lang_recognized_sets_language
           (answering (Ok "!new") false "12-34-56" None)
           (text_event "@alice" "!paired" 2000 "!lang fr") "fr" example_sys).
  - split; [cbn; lia | discriminate].
  - reflexivity.
  - split; [discriminate | reflexivity].
  - by eexists.
Defined.

(** ** Shutdown *)

(** What one call of [Shutdown] does, by the state of the channel. *)
Lemma Shutdown_spec s :
  Shutdown s =
    let calls := trace s ++ [CallCryptoShutdown; CallStopSync] in
    match ShutdownChannel (daemon s) with
    | ChanOpen =>
        Done tt
          {| daemon := set_ShutdownChannel ChanClosed
                         (set_Stopped true (daemon s));
             trace := calls |}
    | ChanClosed =>
        Panicked "close of closed channel"
          {| daemon := set_Stopped true (daemon s); trace := calls |}
    end.
Proof.
  unfold Shutdown, close_ShutdownChannel. unfold_M.
  rewrite <- (assoc_L (++)). by destruct (ShutdownChannel (daemon s)).
Qed.

(** C4, as stated, fails: on the running example daemon the first call of
    [Shutdown] returns and the second one panics. *)
Lemma Shutdown_second_call_panics :
  ∃ s1 s2,
    Shutdown example_sys = Done tt s1 ∧
    Shutdown s1 = Panicked "close of closed channel" s2.
Proof. eexists _, _. split; vm_compute; reflexivity. Qed.

(** C4, amended: on a daemon whose shutdown channel is open, [Shutdown]
    shuts the crypto layer down, stops the sync loop, marks the daemon
    stopped and closes the channel, and returns; it is not idempotent: a
    second call repeats the two calls and then panics on closing the
    closed channel, leaving the daemon as the first call left it. *)
Theorem Shutdown_once s :
  ShutdownChannel (daemon s) = ChanOpen →
  ∃ s1 s2,
    Shutdown s = Done tt s1 ∧
    Stopped (daemon s1) = true ∧
    ShutdownChannel (daemon s1) = ChanClosed ∧
    trace s1 = trace s ++ [CallCryptoShutdown; CallStopSync] ∧
    Shutdown s1 = Panicked "close of closed channel" s2 ∧
    daemon s2 = daemon s1 ∧
    trace s2 = trace s1 ++ [CallCryptoShutdown; CallStopSync].
Proof.
  intros Hopen. eexists _, _. rewrite !Shutdown_spec. cbn.
  rewrite Hopen. by split_and!.
Qed.

Lemma Shutdown_once_witness :
  ∃ s1 s2,
    Shutdown example_sys = Done tt s1 ∧
    Stopped (daemon s1) = true ∧
    ShutdownChannel (daemon s1) = ChanClosed ∧
    trace s1 = [CallCryptoShutdown; CallStopSync] ∧
    Shutdown s1 = Panicked "close of closed channel" s2 ∧
    daemon s2 = daemon s1 ∧
    trace s2 = trace s1 ++ [CallCryptoShutdown; CallStopSync].
Proof. apply (Shutdown_once example_sys). reflexivity. Defined.

(** ** The router *)

Lemma delivery_transport_call v roomID content err :
  delivery (transport_call v roomID content err)
  = Some {| to_room := roomID; via := v; outcome := err |}.
Proof. by destruct v. Qed.

(** [send] makes one delivery, on the transport of the room's flag, and
    returns its answer. *)
Lemma send_spec E content roomID s :
  ∃ err,
    send E content roomID s =
      Done err
        {| daemon := daemon s;
           trace := trace s ++
             [transport_call (transport_for (daemon s) roomID)
                roomID content err] |}.
Proof.
  unfold send, transport_for. unfold_M.
  destruct (isEncrypted (daemon s) !! roomID) as [[]|]; unfold_M; eauto.
Qed.

(** The delivery [Send] makes to one user. *)
Lemma Send_one_spec E content user s :
  ∃ err,
    (if Encrypted user
     then d ← get_daemon;
          call (fun h => SendEncrypted E h d content (RoomID user))
               (CallSendEncrypted (RoomID user) content)
     else send E content (RoomID user)) s =
      Done err
        {| daemon := daemon s;
           trace := trace s ++
             [transport_call (user_transport (daemon s) user)
                (RoomID user) content err] |}.
Proof.
  unfold user_transport. destruct (Encrypted user).
  - unfold_M. eauto.
  - apply send_spec.
Qed.

Lemma Send_range_spec E content users s :
  ∃ err new,
    Send_range E content users s =
      Done err {| daemon := daemon s; trace := trace s ++ new |} ∧
    Send_shape (daemon s) content users err new.
Proof.
  revert s. induction users as [|user rest IH]; intros s.
  - exists None, []. rewrite app_nil_r. destruct s. split; [done|constructor].
  - cbn [Send_range]. unfold mbind at 1, M_bind at 1.
    destruct (Send_one_spec E content user s) as [[e|] ->].
    + eexists (Some e), [_]. split; [done|constructor].
    + edestruct IH as (err & new & -> & Hshape).
      eexists err, (_ :: new). cbn. rewrite <- (assoc_L (++)).
      split; [done|]. by constructor.
Qed.

Lemma Send_spec E message users s :
  ∃ content err new,
    Send E message users s =
      Done err {| daemon := daemon s; trace := trace s ++ new |} ∧
    Send_shape (daemon s) content users err new.
Proof. unfold Send. eexists. apply Send_range_spec. Qed.

Lemma deliveries_cons_transport v roomID content err calls :
  deliveries (transport_call v roomID content err :: calls)
  = {| to_room := roomID; via := v; outcome := err |} :: deliveries calls.
Proof.
  unfold deliveries. cbn [omap list_omap].
  by rewrite delivery_transport_call.
Qed.

(** The deliveries of the loop of [Send] go to a prefix of the users, in
    their order; all of them succeed, except that the last one fails when
    an error is returned. *)
Lemma Send_shape_deliveries d content users err new :
  Send_shape d content users err new →
  to_room <$> deliveries new
    = RoomID <$> take (length (deliveries new)) users ∧
  (err = None →
   length (deliveries new) = length users ∧
   Forall (fun dl => outcome dl = None) (deliveries new)) ∧
  (∀ e, err = Some e →
   ∃ front failed,
     deliveries new = front ++ [failed] ∧
     outcome failed = Some e ∧
     Forall (fun dl => outcome dl = None) front).
Proof.
  induction 1 as [|user rest e|user rest err calls Hshape (IH1 & IH2 & IH3)].
  - split_and!; [done|done|discriminate].
  - rewrite deliveries_cons_transport. split_and!; [done|discriminate|].
    intros e' [= <-]. by eexists [], _.
  - rewrite deliveries_cons_transport. cbn [length take fmap list_fmap].
    split_and!.
    + f_equal. apply IH1.
    + intros Herr. destruct (IH2 Herr) as [Hlen Hall].
      split; [by rewrite Hlen | by constructor].
    + intros e Herr. destruct (IH3 e Herr) as (front & failed & -> & ? & ?).
      eexists (_ :: front), failed. split_and!; [done|done|by constructor].
Qed.

(** C3, as stated, fails: with two recipients and a transport that
    refuses every message, [Send] returns the error of the first
    recipient and makes no delivery attempt for the second one. *)
Lemma Send_skips_recipients_after_failure :
  ∃ s',
    Send (answering (Ok "!new") false "12-34-56" (Some "M_FORBIDDEN"))
      {| Text := "hello"; Markdown := "" |} [alice; bob] example_sys
    = Done (Some "M_FORBIDDEN") s' ∧
    to_room <$> deliveries (trace s') = [RoomID alice].
Proof. eexists. split; vm_compute; reflexivity. Qed.

(** C3, amended: [Send] attempts delivery to the target users in their
    order and stops at the first failure. The deliveries go to a prefix
    of the users; when no error is returned every user was served and
    every delivery succeeded; when an error is returned it is the error
    of the last delivery made, all deliveries before it succeeded, and
    the users after it are not attempted. The daemon is left as it was. *)
Theorem Send_stops_at_first_error E message users s :
  ∃ err s' new,
    Send E message users s = Done err s' ∧
    daemon s' = daemon s ∧
    trace s' = trace s ++ new ∧
    to_room <$> deliveries new
      = RoomID <$> take (length (deliveries new)) users ∧
    (err = None →
     length (deliveries new) = length users ∧
     Forall (fun dl => outcome dl = None) (deliveries new)) ∧
    (∀ e, err = Some e →
     ∃ front failed,
       deliveries new = front ++ [failed] ∧
       outcome failed = Some e ∧
       Forall (fun dl => outcome dl = None) front).
Proof.
  destruct (Send_spec E message users s) as (content & err & new & -> & Hshape).
  exists err. eexists _, new. do 3 (split; [done|]).
  by apply Send_shape_deliveries in Hshape.
Qed.

(** ** Pairing *)

(** [SendStart] always returns, in one of the three shapes. *)
Lemma SendStart_spec E userID s :
  ∃ ok d' new,
    SendStart E userID s
      = Done ok {| daemon := d'; trace := trace s ++ new |} ∧
    SendStart_shape userID (daemon s) ok d' new.
Proof.
  unfold SendStart, CreateRoom. unfold_M.
  destruct (bot_CreateRoom E _ _) as [roomID|e]; unfold_M.
  - match goal with
    | |- context [send E ?c ?r ?s1] =>
        destruct (send_spec E c r s1) as [err ->]
    end.
    cbn. rewrite <- !(assoc_L (++)). cbn.
    destruct err as [e|]; unfold_M.
    + rewrite <- !(assoc_L (++)). cbn.
      eexists _, _, _. split; [reflexivity|]. apply SendStart_no_welcome.
    + eexists _, _, _. split; [reflexivity|]. apply SendStart_welcomed.
  - rewrite <- !(assoc_L (++)). cbn.
    eexists _, _, _. split; [reflexivity|]. apply SendStart_no_room.
Qed.

(** Membership in an explicit list of calls. *)
Ltac in_calls :=
  repeat first [apply list_elem_of_here | apply list_elem_of_further].

Ltac not_in_calls H :=
  exfalso;
  repeat (apply elem_of_cons in H as [H|H];
          [try discriminate; by destruct (transport_for _ _)|]);
  by apply elem_of_nil in H.

(** C5: [SendStart] returns, and it returns true exactly when the room
    was created and the welcome message was delivered without error; it
    returns false exactly when it has logged an error. *)
Theorem SendStart_true_iff_created_and_welcomed E userID s :
  ∃ ok s' new,
    SendStart E userID s = Done ok s' ∧
    trace s' = trace s ++ new ∧
    (ok = true ↔ room_created new ∧ welcome_sent new) ∧
    (ok = false ↔ logged new).
Proof.
  destruct (SendStart_spec E userID s) as (ok & d' & new & -> & Hshape).
  exists ok. eexists _, new. do 2 (split; [done|]).
  unfold room_created, welcome_sent, logged.
  destruct Hshape; unfold deliveries; cbn [omap list_omap delivery];
    rewrite ?delivery_transport_call; cbn [omap list_omap delivery].
  - split; split; try done.
    + intros [(req' & r & Hin) _]. not_in_calls Hin.
    + intros _. eexists. in_calls.
  - split; split; try done.
    + intros [_ (dl & Hin & Hout)].
      apply list_elem_of_singleton in Hin. by subst dl.
    + intros _. eexists. in_calls.
  - split; split; try done.
    + intros _. split; [eexists _, _; in_calls|].
      eexists. split; [apply list_elem_of_singleton; reflexivity|done].
    + intros [entry Hin]. not_in_calls Hin.
Qed.

(** The shape of a given result of [SendStart]. *)
Lemma SendStart_inv E userID s ok s' new :
  SendStart E userID s = Done ok s' →
  trace s' = trace s ++ new →
  SendStart_shape userID (daemon s) ok (daemon s') new.
Proof.
  destruct (SendStart_spec E userID s) as (ok0 & d0 & new0 & -> & Hshape).
  intros [= <- <-]. cbn. by intros ->%app_inv_head.
Qed.

(** C10: when the room was created and the welcome delivery failed,
    [SendStart] returns false and the token issued under the generated
    PIN is still in [tokens]. *)
Theorem SendStart_keeps_token_when_welcome_fails E userID s ok s' new :
  SendStart E userID s = Done ok s' →
  trace s' = trace s ++ new →
  room_created new →
  (∃ dl e, dl ∈ deliveries new ∧ outcome dl = Some e) →
  ok = false ∧
  ∃ pin roomID encrypted,
    CallGenAuthToken pin ∈ new ∧
    tokens (daemon s') !! pin
      = Some (pending roomID userID "en-us" encrypted).
Proof.
  intros Hrun Htrace (req & r & Hcreated) (dl & e & Hdl & Hfailed).
  destruct (SendStart_inv E userID s ok s' new Hrun Htrace)
    as [req' e'|req' roomID encrypted pin content e' d'
        |req' roomID encrypted pin content d'].
  - not_in_calls Hcreated.
  - split; [done|]. exists pin, roomID, encrypted.
    split; [in_calls|]. subst d'. cbn. apply lookup_insert_eq.
  - exfalso. unfold deliveries in Hdl. cbn [omap list_omap delivery] in Hdl.
    rewrite delivery_transport_call in Hdl. cbn [omap list_omap] in Hdl.
    apply list_elem_of_singleton in Hdl. by subst dl.
Qed.

Lemma SendStart_keeps_token_when_welcome_fails_witness :
  ∃ s' new,
    SendStart (answering (Ok "!new") true "12-34-56" (Some "M_FORBIDDEN"))
      "@dave" example_sys = Done false s' ∧
    trace s' = new ∧
    ∃ pin roomID encrypted,
      CallGenAuthToken pin ∈ new ∧
      tokens (daemon s') !! pin
        = Some (pending roomID "@dave" "en-us" encrypted).
Proof.
  eexists _, _. split; [vm_compute; reflexivity|]. split; [reflexivity|].
  eapply (SendStart_keeps_token_when_welcome_fails
            (answering (Ok "!new") true "12-34-56" (Some "M_FORBIDDEN"))
            "@dave" example_sys false).
  - vm_compute. reflexivity.
  - reflexivity.
  - eexists _, _. in_calls.
  - eexists _, _. split; [apply list_elem_of_here | reflexivity].
Defined.

(** C2, as stated, fails: [genAuthToken] takes no argument and its
    answer is stored without a lookup; when it answers the PIN of the
    pending token of the example daemon, that token is replaced. *)
Lemma SendStart_overwrites_pending_token :
  ∃ old s',
    tokens example_daemon !! "AB-CD-EF" = Some old ∧
    SendStart (answering (Ok "!new") false "AB-CD-EF" None)
      "@dave" example_sys = Done true s' ∧
    CallGenAuthToken "AB-CD-EF" ∈ trace s' ∧
    tokens (daemon s') !! "AB-CD-EF"
      = Some (pending "!new" "@dave" "en-us" false) ∧
    old ≠ pending "!new" "@dave" "en-us" false.
Proof.
  eexists _, _. split; [reflexivity|].
  split; [vm_compute; reflexivity|].
  split; [cbn; in_calls|]. split; [reflexivity | discriminate].
Qed.

(** C2, amended: [SendStart] stores the pending token under the
    generated PIN by a plain assignment, without looking the PIN up; when
    the PIN is absent from [tokens] before it is stored, every pending
    token stays and [tokens] grows by the new entry. *)
Theorem SendStart_stores_token_under_pin E userID s ok s' new pin :
  SendStart E userID s = Done ok s' →
  trace s' = trace s ++ new →
  CallGenAuthToken pin ∈ new →
  ∃ roomID encrypted,
    tokens (daemon s')
      = <[pin := pending roomID userID "en-us" encrypted]>
          (tokens (daemon s)) ∧
    (tokens (daemon s) !! pin = None →
     tokens (daemon s) ⊆ tokens (daemon s') ∧
     size (tokens (daemon s')) = S (size (tokens (daemon s)))).
Proof.
  intros Hrun Htrace Hpin.
  destruct (SendStart_inv E userID s ok s' new Hrun Htrace)
    as [req' e'|req' roomID encrypted pin' content e' d'
        |req' roomID encrypted pin' content d'].
  - not_in_calls Hpin.
  - assert (pin = pin') as <-.
    { repeat (apply elem_of_cons in Hpin as [Hpin|Hpin];
              [first [discriminate | by destruct (transport_for _ _)
                     | by injection Hpin]|]).
      by apply elem_of_nil in Hpin. }
    exists roomID, encrypted. subst d'. cbn. split; [done|].
    intros Hfresh. split; [by apply insert_subseteq|].
    by apply map_size_insert_None.
  - assert (pin = pin') as <-.
    { repeat (apply elem_of_cons in Hpin as [Hpin|Hpin];
              [first [discriminate | by destruct (transport_for _ _)
                     | by injection Hpin]|]).
      by apply elem_of_nil in Hpin. }
    exists roomID, encrypted. subst d'. cbn. split; [done|].
    intros Hfresh. split; [by apply insert_subseteq|].
    by apply map_size_insert_None.
Qed.

Lemma SendStart_stores_token_under_pin_witness :
  ∃ s' new,
    SendStart (answering (Ok "!new") false "12-34-56" None)
      "@dave" example_sys = Done true s' ∧
    trace s' = new ∧
    ∃ roomID encrypted,
      tokens (daemon s')
        = <["12-34-56" := pending roomID "@dave" "en-us" encrypted]>
            (tokens example_daemon) ∧
      (tokens example_daemon !! "12-34-56" = None →
       tokens example_daemon ⊆ tokens (daemon s') ∧
       size (tokens (daemon s')) = S (size (tokens example_daemon))).
Proof.
  eexists _, _. split; [vm_compute; reflexivity|]. split; [reflexivity|].
  eapply (SendStart_stores_token_under_pin
            (answering (Ok "!new") false "12-34-56" None)
            "@dave" example_sys true).
  - vm_compute. reflexivity.
  - reflexivity.
  - in_calls.
Defined.

(** ** Sticky encryption *)

Lemma sticky_ret {A} (a : A) : sticky (mret a).
Proof.
  intros s. split; [done|]. exists []. by rewrite app_nil_r.
Qed.

Lemma sticky_panic {A} msg : sticky (@panic A msg).
Proof.
  intros s. split; [done|]. exists []. by rewrite app_nil_r.
Qed.

Lemma sticky_get : sticky get_daemon.
Proof.
  intros s. split; [done|]. exists []. by rewrite app_nil_r.
Qed.

Lemma sticky_modify f :
  (∀ d, isEncrypted (f d) = isEncrypted d) → sticky (modify f).
Proof.
  intros Hf s. split; [apply Hf|]. exists []. by rewrite app_nil_r.
Qed.

Lemma sticky_emit c : delivery c = None → sticky (emit c).
Proof.
  intros Hc s. split; [done|]. exists [c]. split; [done|].
  constructor; [|done]. unfold routed_by_flag. by rewrite Hc.
Qed.

Lemma sticky_call {A} (answer : list Call → A) record :
  (∀ a, delivery (record a) = None) → sticky (call answer record).
Proof.
  intros Hc s. split; [done|]. eexists [_]. split; [done|].
  constructor; [|done]. unfold routed_by_flag. by rewrite Hc.
Qed.

Lemma sticky_bind {A B} (m : M A) (k : A → M B) :
  sticky m → (∀ a, sticky (k a)) → sticky (m ≫= k).
Proof.
  intros Hm Hk s. destruct (Hm s) as (Hflags & new & Htrace & Hnew).
  unfold mbind, M_bind. destruct (m s) as [a s1|msg s1]; cbn in *.
  - destruct (Hk a s1) as (Hflags' & new' & Htrace' & Hnew').
    split; [congruence|]. exists (new ++ new').
    rewrite Htrace', Htrace, (assoc_L (++)). split; [done|].
    apply Forall_app. split; [done|]. by rewrite <- Hflags.
  - split; [done|]. by exists new.
Qed.

Lemma sticky_send E content roomID : sticky (send E content roomID).
Proof.
  intros s. destruct (send_spec E content roomID s) as [err ->]. cbn.
  split; [done|]. eexists [_]. split; [done|]. constructor; [|done].
  unfold routed_by_flag. rewrite delivery_transport_call. cbn.
  unfold transport_for. by intros ->.
Qed.

Lemma sticky_SendEncrypted E content roomID :
  sticky (d ← get_daemon;
          call (fun h => SendEncrypted E h d content roomID)
               (CallSendEncrypted roomID content)).
Proof.
  intros s. split; [done|]. eexists [_]. split; [done|].
  constructor; [|done]. done.
Qed.

Create HintDb sticky.

#[local] Hint Resolve sticky_ret sticky_panic sticky_get sticky_send
  sticky_SendEncrypted : sticky.

(** Decompose a computation along its binds and its case distinctions. *)
Ltac sticky_step :=
  match goal with
  | |- sticky (mbind _ _) => apply sticky_bind; [|intros ?]
  | |- sticky (modify _) => apply sticky_modify; intros ?; reflexivity
  | |- sticky (emit _) => apply sticky_emit; reflexivity
  | |- sticky (call _ _) => apply sticky_call; intros ?; reflexivity
  | |- sticky (let '(_, _) := ?x in _) => destruct x
  | |- sticky (match ?x with _ => _ end) => destruct x
  | |- sticky _ => solve [auto with sticky]
  end.

Lemma sticky_commandLang E evt code lang : sticky (commandLang E evt code lang).
Proof. unfold commandLang. repeat sticky_step. Qed.

Lemma sticky_handleMessage E evt : sticky (handleMessage E evt).
Proof.
  unfold handleMessage, handleMessage_with, assert_string.
  repeat first [apply sticky_commandLang | sticky_step].
Qed.

Lemma sticky_SendStart E userID : sticky (SendStart E userID).
Proof. unfold SendStart, CreateRoom. repeat sticky_step. Qed.

Lemma sticky_Send_range E content users : sticky (Send_range E content users).
Proof.
  induction users as [|user rest IH]; cbn [Send_range];
    repeat first [apply IH | apply sticky_SendEncrypted | sticky_step].
Qed.

Lemma sticky_Send E message users : sticky (Send E message users).
Proof. unfold Send. apply sticky_Send_range. Qed.

Lemma sticky_Shutdown : sticky Shutdown.
Proof. unfold Shutdown, close_ShutdownChannel. repeat sticky_step. Qed.

Lemma sticky_run E ops : sticky (run E ops).
Proof.
  induction ops as [|o ops IH]; cbn [run]; [auto with sticky|].
  apply sticky_bind; [|by intros _].
  destruct o; cbn [run_op];
    auto using sticky_handleMessage, sticky_Shutdown, sticky_bind,
      sticky_SendStart, sticky_send, sticky_Send, sticky_ret.
Qed.

(** C1: take a room whose flag in [isEncrypted] is true. After any run of
    the daemon the flag is still true; every delivery the run made to the
    room, from [Send], from [send] or from the welcome message of
    [SendStart], was on the encrypted path; and a further [send] or
    [Send] to the room makes exactly one call, to [SendEncrypted]. *)
Theorem encrypted_room_stays_on_encrypted_path E ops s roomID :
  isEncrypted (daemon s) !! roomID = Some true →
  let s' := final (run E ops s) in
  isEncrypted (daemon s') !! roomID = Some true ∧
  (∃ new,
     trace s' = trace s ++ new ∧
     ∀ dl, dl ∈ deliveries new → to_room dl = roomID →
           via dl = EncryptedPath) ∧
  (∀ content, ∃ err,
     send E content roomID s' =
       Done err {| daemon := daemon s';
                   trace := trace s' ++
                     [CallSendEncrypted roomID content err] |}) ∧
  (∀ message user, RoomID user = roomID → ∃ content err,
     Send E message [user] s' =
       Done err {| daemon := daemon s';
                   trace := trace s' ++
                     [CallSendEncrypted roomID content err] |}).
Proof.
  intros Hflag s'.
  destruct (sticky_run E ops s) as (Hflags & new & Htrace & Hnew).
  fold s' in Hflags, Htrace.
  assert (isEncrypted (daemon s') !! roomID = Some true) as Hflag'
    by (by rewrite Hflags).
  split; [done|]. split; [|split].
  - exists new. split; [done|]. intros dl Hdl Hroom.
    apply list_elem_of_omap in Hdl as (c & Hc & Hdelivery).
    rewrite Forall_forall in Hnew. specialize (Hnew c Hc).
    unfold routed_by_flag in Hnew. rewrite Hdelivery in Hnew.
    apply Hnew. by rewrite Hroom.
  - intros content. destruct (send_spec E content roomID s') as [err ->].
    exists err. unfold transport_for. by rewrite Hflag'.
  - intros message user <-.
    destruct (Send_spec E message [user] s')
      as (content & err & calls & -> & Hshape).
    assert (user_transport (daemon s') user = EncryptedPath) as Hvia.
    { unfold user_transport, transport_for. rewrite Hflag'.
      by destruct (Encrypted user). }
    exists content, err.
    inversion Hshape as [|? ? e|? ? ? ? Hrest]; subst; rewrite Hvia;
      [done|].
    by inversion Hrest.
Qed.

Lemma encrypted_room_stays_on_encrypted_path_witness :
  let E := answering (Ok "!new") true "12-34-56" None in
  let s' := final (run E example_run example_sys) in
  isEncrypted (daemon s') !! "!secret" = Some true ∧
  (∃ new,
     trace s' = new ∧
     ∀ dl, dl ∈ deliveries new → to_room dl = "!secret" →
           via dl = EncryptedPath) ∧
  (∀ content, ∃ err,
     send E content "!secret" s' =
       Done err {| daemon := daemon s';
                   trace := trace s' ++
                     [CallSendEncrypted "!secret" content err] |}) ∧
  (∀ message user, RoomID user = "!secret" → ∃ content err,
     Send E message [user] s' =
       Done err {| daemon := daemon s';
                   trace := trace s' ++
                     [CallSendEncrypted "!secret" content err] |}).
Proof.
  apply (encrypted_room_stays_on_encrypted_path
           (answering (Ok "!new") true "12-34-56" None)
           example_run example_sys "!secret").
  reflexivity.
Defined.

(** * Further properties of the code *)

(** ** Splitting and joining *)

(** X1: joining the pieces of a split with spaces gives the string
    back. *)
Theorem join_space_Split_space (s : string) :
  join_space (Split_space s) = s.
Proof.
  induction s as [|c s IH]; [done|]. cbn [Split_space].
  pose proof (Split_space_nonempty s) as Hne.
  destruct (Split_space s) as [|piece pieces]; [done|].
  case_decide as Hc.
  - subst c. by rewrite <- IH.
  - rewrite <- IH. by destruct pieces.
Qed.

(** X2: splitting a string gives one piece more than it has spaces, and
    no piece contains a space. *)
Theorem Split_space_pieces (s : string) :
  length (Split_space s) = S (count_spaces s) ∧
  Forall (fun piece => no_space piece = true) (Split_space s).
Proof.
  induction s as [|c s [IHlen IHall]]; cbn [Split_space count_spaces].
  - split; [done|]. by repeat constructor.
  - case_decide as Hc.
    + split; [cbn; by rewrite IHlen|]. by constructor.
    + destruct (Split_space s) as [|piece pieces]; [done|].
      split; [done|]. apply Forall_cons in IHall as [Hpiece Hpieces].
      constructor; [|done]. cbn [no_space]. by rewrite decide_False.
Qed.

(** X3: splitting the join of pieces without spaces gives the pieces
    back, when there is at least one piece. *)
Theorem Split_space_join_space (pieces : list string) :
  pieces ≠ [] →
  Forall (fun piece => no_space piece = true) pieces →
  Split_space (join_space pieces) = pieces.
Proof.
  induction pieces as [|piece rest IH]; [done|]. intros _ Hall.
  apply Forall_cons in Hall as [Hpiece Hrest]. cbn [join_space].
  destruct rest as [|piece' rest]; [by apply Split_space_argument|].
  rewrite Split_space_word by done. f_equal. by apply IH.
Qed.

Lemma Split_space_join_space_witness :
  Split_space (join_space ["!lang"; "fr"]) = ["!lang"; "fr"].
Proof.
  apply (Split_space_join_space ["!lang"; "fr"]); [done|].
  repeat constructor.
Defined.

(** ** Rewriting image markers *)

(** X4: the rewrite of image markers never makes a text longer, and it
    leaves a text without an exclamation mark as it is. *)
Theorem ReplaceAll_image_shrinks (s : string) :
  (String.length (ReplaceAll_image s) ≤ String.length s)%nat ∧
  (no_bang s = true → ReplaceAll_image s = s).
Proof.
  assert (∀ n s, (String.length s ≤ n)%nat →
            (String.length (ReplaceAll_image s) ≤ String.length s)%nat)
    as Hlen.
  { clear s. induction n as [|n IH]; intros [|c [|c' s]] Hn;
      try (cbn [ReplaceAll_image String.length] in *; lia).
    change (ReplaceAll_image (String c (String c' s)))
      with (if decide (c = "!"%char ∧ c' = "["%char)
            then String "["%char (ReplaceAll_image s)
            else String c (ReplaceAll_image (String c' s))).
    pose proof (IH s). pose proof (IH (String c' s)).
    case_decide; cbn [String.length] in *; lia. }
  split; [by apply (Hlen (String.length s))|].
  induction s as [|c s IH]; [done|]. cbn [no_bang ReplaceAll_image].
  case_decide as Hc; [done|]. intros Hs. destruct s as [|c' s]; [done|].
  rewrite decide_False by tauto. by rewrite IH.
Qed.

(** X5: the rewrite is one pass from left to right: an image marker that
    follows an exclamation mark loses that mark only, so that an image
    marker is left in the rewritten text. *)
Theorem ReplaceAll_image_leaves_marker (s : string) :
  ReplaceAll_image ("!![" +:+ s) = "![" +:+ ReplaceAll_image s.
Proof.
  change ("!![" +:+ s) with (String "!" (String "!" (String "[" s))).
  change ("![" +:+ ReplaceAll_image s)
    with (String "!" (String "[" (ReplaceAll_image s))).
  cbn [ReplaceAll_image]. rewrite decide_False by (intros [_ [=]]).
  by rewrite decide_True.
Qed.

(** ** The dispatcher, further *)

(** X6: an event sent by the bot's own user is discarded: whatever the
    command handler is, it is not called, and the state and the trace of
    calls stay as they were. *)
Theorem handleMessage_discards_own_messages E handler evt s :
  event.Sender evt = userID (daemon s) →
  handleMessage_with handler evt s = Done tt s ∧
  handleMessage E evt s = Done tt s.
Proof.
  intros Hself. unfold handleMessage, handleMessage_with. unfold_M.
  case_bool_decide; [done|]. by case_decide.
Qed.

Lemma handleMessage_discards_own_messages_witness :
  handleMessage_with (fun _ _ _ => panic "handler called")
    (text_event "@bot" "!paired" 2000 "!lang fr") example_sys
  = Done tt example_sys ∧
  handleMessage (answering (Ok "!new") false "12-34-56" None)
    (text_event "@bot" "!paired" 2000 "!lang fr") example_sys
  = Done tt example_sys.
Proof.
  apply (handleMessage_discards_own_messages
           (answering (Ok "!new") false "12-34-56" None)
           (fun _ _ _ => panic "handler called")
           (text_event "@bot" "!paired" 2000 "!lang fr") example_sys).
  reflexivity.
Defined.

(** X7: a text whose first piece is not the language command is ignored:
    the content is printed, nothing else is called and the daemon is as
    it was. *)
Theorem handleMessage_ignores_other_text E evt b s :
  passes_filters (daemon s) evt →
  has_body evt b →
  hd "" (Split_space b) ≠ "!lang" →
  handleMessage E evt s =
    Done tt {| daemon := daemon s;
               trace := trace s ++ [CallPrintf (event.Content_Raw evt)] |}.
Proof.
  intros Hpass Hbody Hfirst. rewrite (handleMessage_text E evt b s) by done.
  cbn zeta. pose proof (Split_space_nonempty b) as Hne.
  destruct (Split_space b) as [|first sects]; [done|].
  cbn in Hfirst. by rewrite decide_False.
Qed.

Lemma handleMessage_ignores_other_text_witness :
  handleMessage (answering (Ok "!new") false "12-34-56" None)
    (text_event "@alice" "!paired" 2000 "hello bot") example_sys
  = Done tt
      {| daemon := example_daemon;
         trace := [CallPrintf {[ "body" := event.RawString "hello bot" ]}] |}.
Proof.
  apply (handleMessage_ignores_other_text
           (answering (Ok "!new") false "12-34-56" None)
           (text_event "@alice" "!paired" 2000 "hello bot")
           "hello bot" example_sys).
  - split; [cbn; lia | discriminate].
  - reflexivity.
  - vm_compute. discriminate.
Defined.



Lemma string_app_assoc (a b c : string) : (a +:+ b) +:+ c = a +:+ b +:+ c.
Proof.
  induction a as [|x a IH]; [done|].
  change (String x ((a +:+ b) +:+ c) = String x (a +:+ b +:+ c)).
  by rewrite IH.
Qed.

(** Appending the lines of the listing one after the other. *)
Lemma foldl_append_lines (line : string → string) keys acc :
  foldl (fun list c => list +:+ line c) acc keys
  = acc +:+ foldr (fun c lines => line c +:+ lines) "" keys.
Proof.
  revert acc. induction keys as [|c keys IH]; intros acc; cbn [foldl foldr].
  - induction acc as [|x acc IHacc]; [done|].
    change (String x acc = String x (acc +:+ "")). by rewrite <- IHacc.
  - by rewrite IH, string_app_assoc.
Qed.

(** X9: the listing starts with the usage hint on a line of its own, and
    it has, for every code of the language table, the line made of the
    code, a colon, a space and the display name. *)
Theorem lang_list_content (langs : gmap string telegramLang) :
  (∃ lines, lang_list langs = "!lang <lang>" +:+ nl +:+ lines) ∧
  (∀ c l, langs !! c = Some l →
          contains (lang_list langs) (c +:+ ": " +:+ Meta_Name l +:+ nl)).
Proof.
  unfold lang_list.
  rewrite (foldl_append_lines
             (fun c => c +:+ ": " +:+ Meta_Name (Telegram_at langs c) +:+ nl)).
  split; [eexists; by rewrite string_app_assoc|].
  intros c l Hc.
  assert (c ∈ (map_to_list langs).*1) as Hin.
  { apply list_elem_of_fmap. exists (c, l).
    split; [done|]. by apply elem_of_map_to_list. }
  apply list_elem_of_split in Hin as (keys1 & keys2 & ->).
  rewrite foldr_app. cbn [foldr].
  unfold Telegram_at at 2. rewrite Hc. cbn [default].
  set (line := fun c => c +:+ ": " +:+ Meta_Name (Telegram_at langs c) +:+ nl).
  set (tail := foldr (fun c lines => line c +:+ lines) "" keys2).
  assert (∀ keys acc,
            foldr (fun c lines => line c +:+ lines) acc keys
            = foldr (fun c lines => line c +:+ lines) "" keys +:+ acc)
    as Hacc.
  { induction keys as [|k keys IH]; intros acc; cbn [foldr]; [done|].
    by rewrite IH, string_app_assoc. }
  rewrite Hacc. exists (("!lang <lang>" +:+ nl)
    +:+ foldr (fun c lines => line c +:+ lines) "" keys1), tail.
  by rewrite !string_app_assoc.
Qed.

(** X10: a language command with a recognized argument in a room with a
    stored binding ends in the same daemon whether the persistence
    collaborator fails or not: the cached language and the stored binding
    are updated, the table is handed to the collaborator once, and a
    failure adds one line to the error log. *)
Theorem lang_store_failure_is_logged_not_rolled_back E evt code u s :
  passes_filters (daemon s) evt →
  has_body evt ("!lang " +:+ code) →
  is_argument code →
  recognized (daemon s) code →
  storage_matrix (app (daemon s)) !! event.RoomID evt = Some u →
  let users := <[event.RoomID evt := with_Lang u code]>
                 (storage_matrix (app (daemon s))) in
  ∃ err,
    handleMessage E evt s =
      Done tt
        {| daemon :=
             set_storage_matrix users
               (set_languages
                  (<[event.RoomID evt := code]> (languages (daemon s)))
                  (daemon s));
           trace := trace s ++
             [CallPrintf (event.Content_Raw evt);
              CallStoreMatrixUsers users err]
             ++ log_if LogStoreFailed err |}.
Proof.
  intros Hpass Hbody [Hcode Hspace] [l Hl] Hu users.
  rewrite (handleMessage_lang_argument E evt code s) by done.
  unfold commandLang. unfold_M. case_decide; [done|].
  rewrite Hl. unfold_M. rewrite Hu. unfold_M. fold users.
  match goal with
  | |- context [storeMatrixUsers E ?h ?t] =>
      destruct (storeMatrixUsers E h t) as [e|]
  end; unfold_M; [exists (Some e) | exists None];
    rewrite <- ?(assoc_L (++)); reflexivity.
Qed.

Lemma lang_store_failure_is_logged_not_rolled_back_witness :
  let E := {| bot_CreateRoom := fun _ _ => Ok "!new";
              EncryptRoom := fun _ _ _ _ => false;
              genAuthToken := fun _ => "12-34-56";
              bot_SendMessageEvent := fun _ _ _ => None;
              SendEncrypted := fun _ _ _ _ => None;
              bot_SendText := fun _ _ _ => None;
              storeMatrixUsers := fun _ _ => Some "disk full";
              markdown_ToHTML := fun s => s;
              Strings_get := fun _ _ => "";
              Strings_template := fun _ _ _ => "" |} in
  let evt := text_event "@alice" "!paired" 2000 "!lang fr" in
  let users := <["!paired" := with_Lang alice "fr"]>
                 (storage_matrix example_app) in
  ∃ err,
    handleMessage E evt example_sys =
      Done tt
        {| daemon :=
             set_storage_matrix users
               (set_languages
                  (<["!paired" := "fr"]> (languages example_daemon))
                  example_daemon);
           trace :=
             [CallPrintf (event.Content_Raw evt);
              CallStoreMatrixUsers users err]
             ++ log_if LogStoreFailed err |}.
Proof.
  intros E evt.
  apply (lang_store_failure_is_logged_not_rolled_back E evt "fr" alice
           example_sys).
  - split; [cbn; lia | discriminate].
  - reflexivity.
  - split; [discriminate | reflexivity].
  - by eexists.
  - reflexivity.
Defined.

(** ** What a computation leaves alone *)

Section Preserves.

Context (R : MatrixDaemon → MatrixDaemon → Prop) (ok : Call → Prop).
Context (R_refl : ∀ d, R d d) (R_trans : ∀ d1 d2 d3, R d1 d2 → R d2 d3 → R d1 d3).

Lemma preserves_ret {A} (a : A) : preserves R ok (mret a).
Proof. intros s. split; [apply R_refl|]. exists []. by rewrite app_nil_r. Qed.

Lemma preserves_panic {A} msg : preserves R ok (@panic A msg).
Proof. intros s. split; [apply R_refl|]. exists []. by rewrite app_nil_r. Qed.

Lemma preserves_get : preserves R ok get_daemon.
Proof. intros s. split; [apply R_refl|]. exists []. by rewrite app_nil_r. Qed.

Lemma preserves_modify f : (∀ d, R d (f d)) → preserves R ok (modify f).
Proof. intros Hf s. split; [apply Hf|]. exists []. by rewrite app_nil_r. Qed.

Lemma preserves_emit c : ok c → preserves R ok (emit c).
Proof.
  intros Hc s. split; [apply R_refl|]. exists [c]. split; [done|].
  by repeat constructor.
Qed.

Lemma preserves_call {A} (answer : list Call → A) record :
  (∀ a, ok (record a)) → preserves R ok (call answer record).
Proof.
  intros Hc s. split; [apply R_refl|]. eexists [_]. split; [done|].
  by repeat constructor.
Qed.

Lemma preserves_bind {A B} (m : M A) (k : A → M B) :
  preserves R ok m → (∀ a, preserves R ok (k a)) → preserves R ok (m ≫= k).
Proof.
  intros Hm Hk s. destruct (Hm s) as (Hd & new & Htrace & Hnew).
  unfold mbind, M_bind. destruct (m s) as [a s1|msg s1]; cbn in *.
  - destruct (Hk a s1) as (Hd' & new' & Htrace' & Hnew').
    split; [by eapply R_trans|]. exists (new ++ new').
    rewrite Htrace', Htrace, (assoc_L (++)). split; [done|].
    by apply Forall_app.
  - split; [done|]. by exists new.
Qed.

End Preserves.

Lemma only_languages_differ_refl d : only_languages_differ d d.
Proof. unfold only_languages_differ. by destruct d as [? ? ? ? ? ? ? [] ?]. Qed.

Lemma only_languages_differ_trans d1 d2 d3 :
  only_languages_differ d1 d2 → only_languages_differ d2 d3 →
  only_languages_differ d1 d3.
Proof. unfold only_languages_differ. intros -> ->. done. Qed.

(** Decompose a computation of the dispatcher. *)
Ltac dispatcher_step :=
  match goal with
  | |- preserves _ _ (mbind _ _) =>
      apply preserves_bind;
        [apply only_languages_differ_trans| |intros ?]
  | |- preserves _ _ (modify _) =>
      apply preserves_modify; by intros [? ? ? ? ? ? ? [] ?]
  | |- preserves _ _ (emit _) =>
      apply preserves_emit; [apply only_languages_differ_refl|exact I]
  | |- preserves _ _ (call _ _) =>
      apply preserves_call;
        [apply only_languages_differ_refl|intros ?; exact I]
  | |- preserves _ _ (mret _) =>
      apply preserves_ret; apply only_languages_differ_refl
  | |- preserves _ _ (panic _) =>
      apply preserves_panic; apply only_languages_differ_refl
  | |- preserves _ _ get_daemon =>
      apply preserves_get; apply only_languages_differ_refl
  | |- preserves _ _ (match ?x with _ => _ end) => destruct x
  | |- preserves _ _ _ => progress cbv beta
  end.

Lemma handleMessage_preserves E evt :
  preserves only_languages_differ dispatcher_call (handleMessage E evt).
Proof.
  unfold handleMessage, handleMessage_with, assert_string, commandLang.
  repeat dispatcher_step.
Qed.

(** X11: however [handleMessage] ends, by returning or by the panic, it
    changes nothing of the daemon but the cached languages and the
    stored bindings (the tokens, the encryption flags, the shutdown state,
    the start time and the language table are as before), and it calls
    nothing but the print of the content, [SendText], [storeMatrixUsers]
    and the error log: it creates no room and makes no delivery of the
    router. *)
Theorem handleMessage_frame E evt s :
  let d := daemon s in
  let d' := daemon (final (handleMessage E evt s)) in
  tokens d' = tokens d ∧
  isEncrypted d' = isEncrypted d ∧
  Stopped d' = Stopped d ∧
  ShutdownChannel d' = ShutdownChannel d ∧
  userID d' = userID d ∧
  start d' = start d ∧
  Encryption d' = Encryption d ∧
  storage_lang_Telegram (app d') = storage_lang_Telegram (app d) ∧
  ∃ new,
    trace (final (handleMessage E evt s)) = trace s ++ new ∧
    Forall dispatcher_call new.
Proof.
  destruct (handleMessage_preserves E evt s) as (Hd & new & Htrace & Hnew).
  cbv zeta. unfold only_languages_differ in Hd. rewrite Hd.
  split_and!; try done. by exists new.
Qed.

(** ** The router, further *)

(** X12: [send] to a room whose flag is missing or false makes one call,
    a plaintext [m.room.message] event to the room, returns its answer
    and leaves the daemon as it was. *)
Theorem send_plaintext_without_flag E content roomID s :
  isEncrypted (daemon s) !! roomID ≠ Some true →
  ∃ err,
    send E content roomID s =
      Done err {| daemon := daemon s;
                  trace := trace s ++
                    [CallSendMessageEvent roomID content err] |}.
Proof.
  intros Hflag. destruct (send_spec E content roomID s) as [err ->].
  exists err. unfold transport_for.
  by destruct (isEncrypted (daemon s) !! roomID) as [[]|].
Qed.

Lemma send_plaintext_without_flag_witness :
  ∃ err,
    send (answering (Ok "!new") false "12-34-56" None)
      (plain_content "hello") "!paired" example_sys =
      Done err {| daemon := example_daemon;
                  trace := [CallSendMessageEvent "!paired"
                              (plain_content "hello") err] |}.
Proof.
  apply (send_plaintext_without_flag
           (answering (Ok "!new") false "12-34-56" None)
           (plain_content "hello") "!paired" example_sys).
  vm_compute. discriminate.
Defined.

Lemma Send_shape_calls d content users err new :
  Send_shape d content users err new →
  Forall2
    (fun user c =>
       ∃ e, c = transport_call (user_transport d user) (RoomID user) content e)
    (take (length new) users) new.
Proof.
  induction 1 as [|user rest e|user rest err calls Hshape IH]; cbn.
  - constructor.
  - repeat constructor. by eexists.
  - constructor; [by eexists|done].
Qed.

(** X13: [Send] leaves the daemon as it was and calls nothing but
    deliveries: its calls are, in order, one delivery for each user of a
    prefix of the users, to the room of the user's binding, on the
    encrypted path when the binding is flagged encrypted and on the
    transport of [send] otherwise, all with the one content built from
    the message. *)
Theorem Send_calls E message users s :
  ∃ err new,
    Send E message users s =
      Done err {| daemon := daemon s; trace := trace s ++ new |} ∧
    Forall2
      (fun user c =>
         ∃ e, c = transport_call (user_transport (daemon s) user)
                    (RoomID user) (message_content E message) e)
      (take (length new) users) new.
Proof.
  change (Send E message users)
    with (Send_range E (message_content E message) users).
  destruct (Send_range_spec E (message_content E message) users s)
    as (err & new & -> & Hshape).
  exists err, new. split; [done|]. by eapply Send_shape_calls.
Qed.

(** X14: the content built from a message has the text of the message
    as its body and the type [m.text]; it carries a format exactly when
    it carries a formatted body, which then is the rendering of the
    markdown with its image markers rewritten; a message without markdown
    carries neither. *)
Theorem message_content_format E message :
  let content := message_content E message in
  event.Body content = Text message ∧
  event.MsgType content = "m.text" ∧
  (event.FormattedBody content ≠ "" ↔
   event.Format content = "org.matrix.custom.html") ∧
  (event.FormattedBody content = "" ↔ event.Format content = "") ∧
  (event.FormattedBody content ≠ "" →
   event.FormattedBody content
   = markdown_ToHTML E (ReplaceAll_image (Markdown message))) ∧
  (Markdown message = "" → event.FormattedBody content = "").
Proof.
  unfold message_content. cbv zeta.
  destruct (decide (Markdown message = "")) as [Hmd|Hmd].
  - rewrite decide_True by done. cbn. split_and!; naive_solver.
  - destruct (decide (markdown_ToHTML E (ReplaceAll_image (Markdown message))
                      = "")) as [Hhtml|Hhtml]; cbn; split_and!; naive_solver.
Qed.

(** X15: [Send] and [send] can route the same room differently: for a
    user whose binding is flagged encrypted while the room's flag in
    [isEncrypted] is missing or false, [Send] calls [SendEncrypted] and
    [send] to the room of the binding sends a plaintext event. *)
Theorem Send_trusts_binding_send_trusts_cache E message content user s :
  Encrypted user = true →
  isEncrypted (daemon s) !! RoomID user ≠ Some true →
  (∃ err,
     Send E message [user] s =
       Done err {| daemon := daemon s;
                   trace := trace s ++
                     [CallSendEncrypted (RoomID user)
                        (message_content E message) err] |}) ∧
  (∃ err,
     send E content (RoomID user) s =
       Done err {| daemon := daemon s;
                   trace := trace s ++
                     [CallSendMessageEvent (RoomID user) content err] |}).
Proof.
  intros Hbinding Hflag. split.
  - change (Send E message [user])
      with (Send_range E (message_content E message) [user]).
    cbn [Send_range]. rewrite Hbinding. unfold_M.
    match goal with
    | |- context [SendEncrypted E ?h ?d ?c ?r] =>
        destruct (SendEncrypted E h d c r) as [e|]
    end; unfold_M; eauto.
  - destruct (send_spec E content (RoomID user) s) as [err ->].
    exists err. unfold transport_for.
    by destruct (isEncrypted (daemon s) !! RoomID user) as [[]|].
Qed.

Lemma Send_trusts_binding_send_trusts_cache_witness :
  let E := answering (Ok "!new") false "12-34-56" None in
  let user := {| RoomID := "!paired"; Encrypted := true; UserID := "@alice";
                 Lang := "en-us"; Contact := true |} in
  let message := {| Text := "hello"; Markdown := "" |} in
  (∃ err,
     Send E message [user] example_sys =
       Done err {| daemon := example_daemon;
                   trace := [CallSendEncrypted "!paired"
                               (message_content E message) err] |}) ∧
  (∃ err,
     send E (plain_content "hello") "!paired" example_sys =
       Done err {| daemon := example_daemon;
                   trace := [CallSendMessageEvent "!paired"
                               (plain_content "hello") err] |}).
Proof.
  intros E user message.
  apply (Send_trusts_binding_send_trusts_cache E message
           (plain_content "hello") user example_sys).
  - reflexivity.
  - vm_compute. discriminate.
Defined.

(** ** Pairing, further *)


(** What [SendStart] does, by the answer of the homeserver to the
    request for a room. *)
Lemma SendStart_eval E userID s :
  let req := {| Visibility := "private"; Invite := [userID];
                Topic := config_matrix_topic (app (daemon s));
                IsDirect := true |} in
  match bot_CreateRoom E (trace s) req with
  | Err e =>
      SendStart E userID s =
        Done false
          {| daemon := daemon s;
             trace := trace s ++
               [CallCreateRoom req (Err e);
                CallErrPrintf (LogCreateRoomFailed userID e)] |}
  | Ok roomID =>
      ∃ encrypted pin err,
        let d' := set_tokens
                    (<[pin := pending roomID userID "en-us" encrypted]>
                       (tokens (daemon s)))
                    (daemon s) in
        let content :=
          {| event.MsgType := "m.text";
             event.Body := welcome_body E d' "en-us" pin;
             event.FormattedBody := ""; event.Format := "" |} in
        SendStart E userID s =
          Done (bool_decide (err = None))
            {| daemon := d';
               trace := trace s ++
                 [CallCreateRoom req (Ok roomID);
                  CallEncryptRoom roomID userID encrypted;
                  CallGenAuthToken pin;
                  transport_call (transport_for d' roomID) roomID content err]
                 ++ log_if (LogWelcomeFailed userID) err |}
  end.
Proof.
  intros req. unfold SendStart, CreateRoom. unfold_M. fold req.
  destruct (bot_CreateRoom E (trace s) req) as [roomID|e]; unfold_M.
  - match goal with
    | |- context [send E ?c ?r ?s1] =>
        destruct (send_spec E c r s1) as [err Hsend]
    end.
    eexists _, _, err. cbv zeta. rewrite Hsend. cbn.
    rewrite <- !(assoc_L (++)). cbn.
    destruct err as [e|]; unfold_M; by rewrite <- ?(assoc_L (++)).
  - by rewrite <- !(assoc_L (++)).
Qed.

(** The daemon after a [SendStart] that generated a PIN. *)
Lemma SendStart_shape_pin userID d ok d' new pin :
  SendStart_shape userID d ok d' new →
  CallGenAuthToken pin ∈ new →
  ∃ roomID encrypted,
    d' = set_tokens
           (<[pin := pending roomID userID "en-us" encrypted]> (tokens d)) d.
Proof.
  intros [req e|req roomID encrypted pin' content e d0
          |req roomID encrypted pin' content d0] Hpin.
  - not_in_calls Hpin.
  - assert (pin = pin') as <-; [|by eexists _, _].
    repeat (apply elem_of_cons in Hpin as [Hpin|Hpin];
            [first [discriminate | by destruct (transport_for _ _)
                   | by injection Hpin]|]).
    by apply elem_of_nil in Hpin.
  - assert (pin = pin') as <-; [|by eexists _, _].
    repeat (apply elem_of_cons in Hpin as [Hpin|Hpin];
            [first [discriminate | by destruct (transport_for _ _)
                   | by injection Hpin]|]).
    by apply elem_of_nil in Hpin.
Qed.

(** X17: when the room is not created, [SendStart] returns false after
    the request and one line in the error log: no PIN is generated, no
    token is stored, nothing is sent, and the daemon is as it was. *)
Theorem SendStart_without_room E userID s ok s' new :
  SendStart E userID s = Done ok s' →
  trace s' = trace s ++ new →
  ¬ room_created new →
  ok = false ∧
  daemon s' = daemon s ∧
  ∃ req e,
    new = [CallCreateRoom req (Err e);
           CallErrPrintf (LogCreateRoomFailed userID e)].
Proof.
  intros Hrun Htrace Hnone.
  destruct (SendStart_inv E userID s ok s' new Hrun Htrace)
    as [req e|req roomID encrypted pin content e d'
        |req roomID encrypted pin content d'].
  - split_and!; [done..|]. by eexists _, _.
  - destruct Hnone. eexists _, _. in_calls.
  - destruct Hnone. eexists _, _. in_calls.
Qed.

Lemma SendStart_without_room_witness :
  ∃ s' new,
    SendStart (answering (Err "M_LIMIT_EXCEEDED") false "12-34-56" None)
      "@dave" example_sys = Done false s' ∧
    trace s' = new ∧
    daemon s' = example_daemon ∧
    ∃ req e,
      new = [CallCreateRoom req (Err e);
             CallErrPrintf (LogCreateRoomFailed "@dave" e)].
Proof.
  eexists _, _. split; [vm_compute; reflexivity|]. split; [reflexivity|].
  eapply (SendStart_without_room
            (answering (Err "M_LIMIT_EXCEEDED") false "12-34-56" None)
            "@dave" example_sys false).
  - vm_compute. reflexivity.
  - reflexivity.
  - intros (req & r & Hin). not_in_calls Hin.
Defined.

(** X18: when the room is created, [SendStart] calls, in this order, the
    room creation, the encryption negotiation, the PIN generator and one
    welcome delivery, and it writes one line to the error log when the
    delivery fails. The welcome goes to the created room as an [m.text]
    message whose body is the start message, an empty line, the PIN, an
    empty line and the language message. The token stored under the PIN
    is unverified and binds the user to the created room with the
    negotiated flag and the language [en-us]. The result tells whether
    the delivery succeeded. *)
Theorem SendStart_welcome E userID s ok s' new :
  SendStart E userID s = Done ok s' →
  trace s' = trace s ++ new →
  room_created new →
  ∃ req roomID encrypted pin err,
    let content :=
      {| event.MsgType := "m.text";
         event.Body := welcome_body E (daemon s') "en-us" pin;
         event.FormattedBody := ""; event.Format := "" |} in
    new = [CallCreateRoom req (Ok roomID);
           CallEncryptRoom roomID userID encrypted;
           CallGenAuthToken pin;
           transport_call (transport_for (daemon s') roomID)
             roomID content err]
          ++ log_if (LogWelcomeFailed userID) err ∧
    tokens (daemon s') !! pin
      = Some {| Verified := false;
                User := {| RoomID := roomID; Encrypted := encrypted;
                           UserID := userID; Lang := "en-us";
                           Contact := false |} |} ∧
    ok = bool_decide (err = None) ∧
    contains (event.Body content) (nl +:+ nl +:+ pin +:+ nl +:+ nl).
Proof.
  intros Hrun Htrace (req0 & r0 & Hcreated).
  pose proof (SendStart_eval E userID s) as Heval. cbv zeta in Heval.
  destruct (bot_CreateRoom E (trace s) _) as [roomID|e].
  - destruct Heval as (encrypted & pin & err & Heval).
    rewrite Heval in Hrun. injection Hrun as <- <-. cbn [trace] in Htrace.
    apply app_inv_head in Htrace as <-.
    eexists _, roomID, encrypted, pin, err.
    split; [reflexivity|]. split; [|split; [reflexivity|]].
    + cbn [daemon tokens set_tokens]. apply lookup_insert_eq.
    + cbn [event.Body]. unfold welcome_body. cbv zeta.
      match goal with
      | |- contains (?a +:+ _ +:+ _ +:+ _ +:+ _ +:+ _ +:+ ?c) _ =>
          exists a, c
      end.
      by rewrite !string_app_assoc.
  - rewrite Heval in Hrun. injection Hrun as <- <-. cbn [trace] in Htrace.
    apply app_inv_head in Htrace as <-. not_in_calls Hcreated.
Qed.

Lemma SendStart_welcome_witness :
  let E := answering (Ok "!new") true "12-34-56" None in
  ∃ s' new,
    SendStart E "@dave" example_sys = Done true s' ∧
    trace s' = new ∧
    ∃ req roomID encrypted pin err,
      let content :=
        {| event.MsgType := "m.text";
           event.Body := welcome_body E (daemon s') "en-us" pin;
           event.FormattedBody := ""; event.Format := "" |} in
      new = [CallCreateRoom req (Ok roomID);
             CallEncryptRoom roomID "@dave" encrypted;
             CallGenAuthToken pin;
             transport_call (transport_for (daemon s') roomID)
               roomID content err]
            ++ log_if (LogWelcomeFailed "@dave") err ∧
      tokens (daemon s') !! pin
        = Some {| Verified := false;
                  User := {| RoomID := roomID; Encrypted := encrypted;
                             UserID := "@dave"; Lang := "en-us";
                             Contact := false |} |} ∧
      true = bool_decide (err = None) ∧
      contains (event.Body content) (nl +:+ nl +:+ pin +:+ nl +:+ nl).
Proof.
  intros E. eexists _, _. split; [vm_compute; reflexivity|].
  split; [reflexivity|].
  apply (SendStart_welcome E "@dave" example_sys true).
  - vm_compute. reflexivity.
  - reflexivity.
  - eexists _, _. in_calls.
Defined.



(** X20: two pairings in a row with different PINs leave both tokens
    pending, each binding its own user; the second pairing does not
    disturb the token of the first. *)
Theorem SendStart_twice E user1 user2 s ok1 s1 new1 ok2 s2 new2 pin1 pin2 :
  SendStart E user1 s = Done ok1 s1 →
  trace s1 = trace s ++ new1 →
  SendStart E user2 s1 = Done ok2 s2 →
  trace s2 = trace s1 ++ new2 →
  CallGenAuthToken pin1 ∈ new1 →
  CallGenAuthToken pin2 ∈ new2 →
  pin1 ≠ pin2 →
  ∃ room1 encrypted1 room2 encrypted2,
    tokens (daemon s2) !! pin1
      = Some (pending room1 user1 "en-us" encrypted1) ∧
    tokens (daemon s2) !! pin2
      = Some (pending room2 user2 "en-us" encrypted2) ∧
    ∀ pin, pin ≠ pin1 → pin ≠ pin2 →
           tokens (daemon s2) !! pin = tokens (daemon s) !! pin.
Proof.
  intros Hrun1 Htrace1 Hrun2 Htrace2 Hpin1 Hpin2 Hne.
  pose proof (SendStart_inv E user1 s ok1 s1 new1 Hrun1 Htrace1) as Hshape1.
  pose proof (SendStart_inv E user2 s1 ok2 s2 new2 Hrun2 Htrace2) as Hshape2.
  destruct (SendStart_shape_pin _ _ _ _ _ _ Hshape1 Hpin1)
    as (room1 & encrypted1 & Hd1).
  destruct (SendStart_shape_pin _ _ _ _ _ _ Hshape2 Hpin2)
    as (room2 & encrypted2 & Hd2).
  exists room1, encrypted1, room2, encrypted2.
  rewrite Hd2, Hd1. cbn. split_and!.
  - rewrite lookup_insert_ne by done. apply lookup_insert_eq.
  - apply lookup_insert_eq.
  - intros pin Hp1 Hp2. by rewrite !lookup_insert_ne.
Qed.

Lemma SendStart_twice_witness :
  let E := {| bot_CreateRoom := fun _ _ => Ok "!new";
              EncryptRoom := fun _ _ _ _ => false;
              genAuthToken := fun h =>
                if decide (length h = 2%nat) then "12-34-56"
                else "65-43-21";
              bot_SendMessageEvent := fun _ _ _ => None;
              SendEncrypted := fun _ _ _ _ => None;
              bot_SendText := fun _ _ _ => None;
              storeMatrixUsers := fun _ _ => None;
              markdown_ToHTML := fun s => s;
              Strings_get := fun _ _ => "";
              Strings_template := fun _ _ _ => "" |} in
  let s1 := final (SendStart E "@dave" example_sys) in
  let s2 := final (SendStart E "@erin" s1) in
  ∃ room1 encrypted1 room2 encrypted2,
    tokens (daemon s2) !! "12-34-56"
      = Some (pending room1 "@dave" "en-us" encrypted1) ∧
    tokens (daemon s2) !! "65-43-21"
      = Some (pending room2 "@erin" "en-us" encrypted2) ∧
    ∀ pin, pin ≠ "12-34-56" → pin ≠ "65-43-21" →
           tokens (daemon s2) !! pin = tokens example_daemon !! pin.
Proof.
  intros E s1 s2.
  apply (SendStart_twice E "@dave" "@erin" example_sys
           true s1 (trace s1)
           true s2 (drop (length (trace s1)) (trace s2))
           "12-34-56" "65-43-21").
  - vm_compute. reflexivity.
  - reflexivity.
  - vm_compute. reflexivity.
  - vm_compute. reflexivity.
  - vm_compute. in_calls.
  - vm_compute. in_calls.
  - discriminate.
Defined.

(** ** Shutdown, further *)

(** X21: however a call of [Shutdown] ends, by returning or by the panic
    of a second call, the daemon is marked stopped, its channel is
    closed, the crypto layer was shut down and the sync loop was stopped,
    in this order; the tokens, the caches and the application context are
    not touched. *)
Theorem Shutdown_always_stops s :
  let s' := final (Shutdown s) in
  Stopped (daemon s') = true ∧
  ShutdownChannel (daemon s') = ChanClosed ∧
  trace s' = trace s ++ [CallCryptoShutdown; CallStopSync] ∧
  tokens (daemon s') = tokens (daemon s) ∧
  languages (daemon s') = languages (daemon s) ∧
  isEncrypted (daemon s') = isEncrypted (daemon s) ∧
  app (daemon s') = app (daemon s).
Proof.
  rewrite Shutdown_spec. cbv zeta.
  by destruct (ShutdownChannel (daemon s)) eqn:Hchan.
Qed.

(** X22: the router does not look at the shutdown state: after
    [Shutdown], however it ended, [send] still makes its delivery, on the
    transport it would have picked before. *)
Theorem send_after_Shutdown E content roomID s :
  let s' := final (Shutdown s) in
  ∃ err,
    send E content roomID s' =
      Done err
        {| daemon := daemon s';
           trace := trace s ++
             [CallCryptoShutdown; CallStopSync;
              transport_call (transport_for (daemon s) roomID)
                roomID content err] |}.
Proof.
  intros s'. destruct (send_spec E content roomID s') as [err ->].
  exists err. unfold s', transport_for. rewrite Shutdown_spec. cbv zeta.
  destruct (ShutdownChannel (daemon s)); cbn;
    by rewrite <- (assoc_L (++)).
Qed.

(** ** Start-up: seeding the caches *)

Lemma seed_rooms_cons user order d :
  seed_rooms (user :: order) d = seed_rooms order (seed_room d user).
Proof. done. Qed.

Lemma seed_room_isEncrypted d user :
  isEncrypted (seed_room d user)
  = <[RoomID user := Encrypted user]> (isEncrypted d).
Proof. unfold seed_room. by case_decide. Qed.

Lemma seed_room_languages d user :
  languages (seed_room d user)
  = if decide (Lang user = "") then languages d
    else <[RoomID user := Lang user]> (languages d).
Proof. unfold seed_room. by case_decide. Qed.

(** Seeding does not touch the rooms it does not meet. *)
Lemma seed_rooms_other order d roomID :
  roomID ∉ RoomID <$> order →
  isEncrypted (seed_rooms order d) !! roomID = isEncrypted d !! roomID ∧
  languages (seed_rooms order d) !! roomID = languages d !! roomID.
Proof.
  revert d. induction order as [|user order IH]; intros d Hout; [done|].
  rewrite fmap_cons in Hout. apply not_elem_of_cons in Hout as [Hne Hout].
  rewrite seed_rooms_cons. destruct (IH (seed_room d user) Hout) as [-> ->].
  rewrite seed_room_isEncrypted, seed_room_languages.
  split; [by rewrite lookup_insert_ne|].
  case_decide; [done|]. by rewrite lookup_insert_ne.
Qed.

(** Seeding caches the flag and the language of every binding it meets,
    when no two of them have the same room. *)
Lemma seed_rooms_member order d user :
  NoDup (RoomID <$> order) →
  user ∈ order →
  isEncrypted (seed_rooms order d) !! RoomID user = Some (Encrypted user) ∧
  languages (seed_rooms order d) !! RoomID user
    = if decide (Lang user = "") then languages d !! RoomID user
      else Some (Lang user).
Proof.
  revert d. induction order as [|first order IH]; intros d Hdup Hin.
  { by apply elem_of_nil in Hin. }
  rewrite fmap_cons in Hdup. apply NoDup_cons in Hdup as [Hfirst Hdup].
  rewrite seed_rooms_cons. apply elem_of_cons in Hin as [->|Hin].
  - destruct (seed_rooms_other order (seed_room d first) (RoomID first) Hfirst)
      as [-> ->].
    rewrite seed_room_isEncrypted, seed_room_languages.
    split; [apply lookup_insert_eq|].
    case_decide; [done|]. apply lookup_insert_eq.
  - destruct (IH (seed_room d first) Hdup Hin) as [-> ->].
    split; [done|]. case_decide; [|done].
    rewrite seed_room_languages.
    assert (RoomID first ≠ RoomID user) as Hne.
    { intros Heq. apply Hfirst. rewrite Heq. by apply list_elem_of_fmap_2. }
    case_decide; [done|]. by rewrite lookup_insert_ne.
Qed.

(** X23: when no two stored bindings have the same room, seeding caches
    for every binding the flag of the binding under its room, and its
    language unless the language is empty, in which case the cached
    language of the room is left as it was; rooms of no binding are left
    as they were. *)
Theorem seed_rooms_lookup order d :
  NoDup (RoomID <$> order) →
  (∀ user, user ∈ order →
     isEncrypted (seed_rooms order d) !! RoomID user
       = Some (Encrypted user) ∧
     languages (seed_rooms order d) !! RoomID user
       = if decide (Lang user = "") then languages d !! RoomID user
         else Some (Lang user)) ∧
  (∀ roomID, roomID ∉ RoomID <$> order →
     isEncrypted (seed_rooms order d) !! roomID = isEncrypted d !! roomID ∧
     languages (seed_rooms order d) !! roomID = languages d !! roomID).
Proof.
  intros Hdup. split.
  - intros user Hin. by apply seed_rooms_member.
  - intros roomID. apply seed_rooms_other.
Qed.

Lemma seed_rooms_lookup_witness :
  (∀ user, user ∈ [alice; eve] →
     isEncrypted (seed_rooms [alice; eve] example_daemon) !! RoomID user
       = Some (Encrypted user) ∧
     languages (seed_rooms [alice; eve] example_daemon) !! RoomID user
       = if decide (Lang user = "")
         then languages example_daemon !! RoomID user
         else Some (Lang user)) ∧
  (∀ roomID, roomID ∉ RoomID <$> [alice; eve] →
     isEncrypted (seed_rooms [alice; eve] example_daemon) !! roomID
       = isEncrypted example_daemon !! roomID ∧
     languages (seed_rooms [alice; eve] example_daemon) !! roomID
       = languages example_daemon !! roomID).
Proof.
  apply (seed_rooms_lookup [alice; eve] example_daemon).
  repeat constructor; [|apply not_elem_of_nil].
  intros Hin. apply list_elem_of_singleton in Hin. discriminate.
Defined.

(** Meeting two bindings of different rooms in either order. *)
Lemma seed_room_swap d x y :
  RoomID x ≠ RoomID y →
  seed_room (seed_room d x) y = seed_room (seed_room d y) x.
Proof.
  intros Hne. unfold seed_room, set_isEncrypted, set_languages. destruct d.
  repeat case_decide; cbn; f_equal;
    first [done | apply insert_insert_ne; congruence].
Qed.

Lemma seed_rooms_Permutation order1 order2 :
  order1 ≡ₚ order2 →
  NoDup (RoomID <$> order1) →
  ∀ d, seed_rooms order1 d = seed_rooms order2 d.
Proof.
  induction 1 as [|x l1 l2 Hperm IH|x y l|l1 l2 l3 Hperm1 IH1 Hperm2 IH2];
    intros Hdup d.
  - done.
  - rewrite !seed_rooms_cons. apply IH.
    rewrite fmap_cons in Hdup. by apply NoDup_cons in Hdup as [_ ?].
  - rewrite !seed_rooms_cons. f_equal. apply seed_room_swap.
    rewrite !fmap_cons in Hdup. apply NoDup_cons in Hdup as [Hy _].
    apply not_elem_of_cons in Hy as [Hy _]. done.
  - rewrite IH1 by done. apply IH2. by rewrite <- Hperm1.
Qed.

(** X24: when no two stored bindings have the same room, the seeded
    daemon does not depend on the order in which the loop meets the
    bindings of the table. *)
Theorem seed_rooms_order_independent table order1 order2 d :
  range_order table order1 →
  range_order table order2 →
  NoDup (RoomID <$> order1) →
  seed_rooms order1 d = seed_rooms order2 d.
Proof.
  unfold range_order. intros H1 H2 Hdup.
  apply seed_rooms_Permutation; [|done]. by rewrite H1, H2.
Qed.

Lemma seed_rooms_order_independent_witness :
  seed_rooms [alice; eve] example_daemon
  = seed_rooms [eve; alice] example_daemon.
Proof.
  apply (seed_rooms_order_independent
           {[ "jf-alice" := alice; "jf-eve" := eve ]}
           [alice; eve] [eve; alice] example_daemon).
  - unfold range_order. vm_compute.
    solve [apply Permutation_refl | apply perm_swap].
  - unfold range_order. vm_compute.
    solve [apply Permutation_refl | apply perm_swap].
  - repeat constructor; [|apply not_elem_of_nil].
    intros Hin. apply list_elem_of_singleton in Hin. discriminate.
Defined.

Lemma seed_rooms_domains order d :
  dom (isEncrypted (seed_rooms order d))
    = list_to_set (RoomID <$> order) ∪ dom (isEncrypted d) ∧
  dom (languages (seed_rooms order d))
    ⊆ list_to_set (RoomID <$> order) ∪ dom (languages d).
Proof.
  revert d. induction order as [|user order IH]; intros d.
  - cbn. split; set_solver.
  - rewrite seed_rooms_cons, fmap_cons, list_to_set_cons.
    destruct (IH (seed_room d user)) as [-> Hlang].
    rewrite seed_room_isEncrypted, dom_insert_L.
    split; [set_solver|].
    etrans; [exact Hlang|]. rewrite seed_room_languages.
    case_decide; [set_solver|]. rewrite dom_insert_L. set_solver.
Qed.

Lemma seed_rooms_rest order d :
  seed_rooms order d
  = set_isEncrypted (isEncrypted (seed_rooms order d))
      (set_languages (languages (seed_rooms order d)) d).
Proof.
  revert d. induction order as [|user order IH]; intros d.
  - by destruct d.
  - rewrite seed_rooms_cons. rewrite (IH (seed_room d user)) at 1.
    unfold seed_room, set_isEncrypted, set_languages.
    destruct d. by case_decide.
Qed.

(** X25: the daemon built at start-up and seeded from the stored
    bindings has a flag cached for exactly the rooms of the bindings and
    a language cached only for such rooms; it has no pending token, it is
    not stopped and its shutdown channel is open. *)
Theorem seeded_daemon_invariant a user_id now order :
  let d := seed_rooms order (fresh_daemon a user_id now) in
  dom (isEncrypted d) = list_to_set (RoomID <$> order) ∧
  dom (languages d) ⊆ dom (isEncrypted d) ∧
  tokens d = ∅ ∧
  Stopped d = false ∧
  ShutdownChannel d = ChanOpen ∧
  userID d = user_id ∧
  app d = a.
Proof.
  intros d.
  destruct (seed_rooms_domains order (fresh_daemon a user_id now))
    as [Hflags Hlangs].
  fold d in Hflags, Hlangs.
  cbn [isEncrypted languages fresh_daemon] in Hflags, Hlangs.
  rewrite dom_empty_L, (right_id_L ∅ (∪)) in Hflags.
  rewrite dom_empty_L, (right_id_L ∅ (∪)) in Hlangs.
  split; [done|]. split; [by rewrite Hflags|].
  unfold d. by rewrite seed_rooms_rest.
Qed.

(** X26: after start-up, when no two stored bindings have the same room,
    [send] to the room of a stored binding takes the encrypted path
    exactly when the binding is flagged encrypted. *)
Theorem send_follows_stored_flag E order d0 user content s :
  NoDup (RoomID <$> order) →
  user ∈ order →
  daemon s = seed_rooms order d0 →
  ∃ err,
    send E content (RoomID user) s =
      Done err
        {| daemon := daemon s;
           trace := trace s ++
             [transport_call
                (if Encrypted user then EncryptedPath else Plaintext)
                (RoomID user) content err] |}.
Proof.
  intros Hdup Hin Hs.
  destruct (send_spec E content (RoomID user) s) as [err ->].
  exists err. unfold transport_for. rewrite Hs.
  destruct (seed_rooms_member order d0 user Hdup Hin) as [-> _].
  by destruct (Encrypted user).
Qed.

Lemma send_follows_stored_flag_witness :
  let E := answering (Ok "!new") false "12-34-56" None in
  let s := {| daemon := seed_rooms [alice; eve]
                          (fresh_daemon example_app "@bot" 1000000000);
              trace := [] |} in
  ∃ err,
    send E (plain_content "hello") (RoomID alice) s =
      Done err
        {| daemon := daemon s;
           trace := trace s ++
             [transport_call
                (if Encrypted alice then EncryptedPath else Plaintext)
                (RoomID alice) (plain_content "hello") err] |}.
Proof.
  intros E s.
  apply (send_follows_stored_flag E [alice; eve]
           (fresh_daemon example_app "@bot" 1000000000) alice
           (plain_content "hello") s).
  - repeat constructor; [|apply not_elem_of_nil].
    intros Hin. apply list_elem_of_singleton in Hin. discriminate.
  - apply list_elem_of_here.
  - reflexivity.
Defined.

(** X27: the start time is the clock reading in whole milliseconds: with
    a clock that reads [now] nanoseconds, not negative, a timestamp is
    before the start of the daemon exactly when the millisecond after it
    has passed. An event stamped with the millisecond of the start is
    not backlog. *)
Theorem start_in_milliseconds a user_id (now timestamp : Z) :
  (0 ≤ now)%Z →
  (timestamp < start (fresh_daemon a user_id now))%Z
  ↔ ((timestamp + 1) * 1000000 ≤ now)%Z.
Proof.
  intros Hnow. cbn [start fresh_daemon].
  rewrite Z.quot_div_nonneg by lia.
  pose proof (Z.div_mod now 1000000 ltac:(lia)) as Hdiv.
  pose proof (Z.mod_pos_bound now 1000000 ltac:(lia)) as Hmod.
  split; intros H; nia.
Qed.

Lemma start_in_milliseconds_witness :
  (1699 < start (fresh_daemon example_app "@bot" 1700999999))%Z
  ↔ ((1699 + 1) * 1000000 ≤ 1700999999)%Z.
Proof.
  apply (start_in_milliseconds example_app "@bot" 1700999999 1699). lia.
Defined.
